(** * AskVinny weekly agent performance: the aggregation query and the
      week selection of [app.py]

    The development embeds the two computations of [app.py]:

    - [load_weekly_data] (lines 53-79): one PostgreSQL query over the
      relations [viewings] and [prospects], modelled relation by relation
      ([cleaned_viewings], the left join, [weekly], the final select with
      its [ORDER BY]);
    - the week selection of the script body (lines 87-120): [valid_weeks],
      the stored [selected_index], the snap of a picked date to the nearest
      week of the data set, and the filter of the table to that week.

    SQL values are modelled as PostgreSQL has them: [NULL] is [None], a
    [date] is a day number, a [timestamp] a number of microseconds, a
    [numeric] an unscaled integer with its display scale. Two functions of
    the database are interfaces of the model: the reading of a date from
    text ([DateParser]) and the comparison of strings ([Collation]). Python
    values are modelled as pandas has them: a [Timestamp] is a number of
    nanoseconds, an exception ends the run of the script. *)

From Stdlib Require Import ZArith Lia QArith.
From stdpp Require Import prelude strings sorting.

Local Open Scope Z_scope.

(** ** Outcomes: a value, or the exception that ended the run *)

Inductive exn : Type :=
  | DataError    (* the query failed: TO_DATE rejected a value *)
  | IndexError   (* an index outside the bounds of a pandas Index *)
  | ValueError.  (* argmin of an empty sequence *)

Inductive outcome (A : Type) : Type :=
  | Ok (a : A)
  | Raise (e : exn).
Arguments Ok {A} a.
Arguments Raise {A} e.

Global Instance outcome_ret : MRet outcome := λ A a, Ok a.
Global Instance outcome_bind : MBind outcome := λ A B k m,
  match m with
  | Ok a => k a
  | Raise e => Raise e
  end.

Global Instance outcome_fmap : FMap outcome := λ A B f m,
  match m with
  | Ok a => Ok (f a)
  | Raise e => Raise e
  end.

(** ** Calendar *)

(** A [date] is the number of days since 1970-01-01 (a Thursday). *)
Definition date := Z.

Definition is_leap (y : Z) : bool :=
  (y mod 4 =? 0) && (negb (y mod 100 =? 0) || (y mod 400 =? 0)).

Definition days_in_month (y m : Z) : Z :=
  if m =? 2 then (if is_leap y then 29 else 28)
  else if (m =? 4) || (m =? 6) || (m =? 9) || (m =? 11) then 30
  else 31.

(** Day number of the proleptic Gregorian date [y]-[m]-[d]. *)
Definition days_from_civil (y m d : Z) : date :=
  let y' := if m <=? 2 then y - 1 else y in
  let era := y' / 400 in
  let yoe := y' - era * 400 in
  let mp := if m <=? 2 then m + 9 else m - 3 in
  let doy := (153 * mp + 2) / 5 + d - 1 in
  let doe := yoe * 365 + yoe / 4 - yoe / 100 + doy in
  era * 146097 + doe - 719468.

(** Offset of a day from the Monday of its week: Monday is 0, Sunday 6
    (Python's [weekday()]; day 0 is a Thursday). *)
Definition weekday (d : date) : Z := (d + 3) mod 7.

(** ** TO_DATE(text, 'DD/MM/YYYY') *)

Definition digit_of (c : Ascii.ascii) : option Z :=
  let n := Z.of_N (Ascii.N_of_ascii c) in
  if (48 <=? n) && (n <=? 57) then Some (n - 48) else None.

Definition is_slash (c : Ascii.ascii) : bool :=
  Z.of_N (Ascii.N_of_ascii c) =? 47.

(** [TO_DATE(text, 'DD/MM/YYYY')], a function of the database: the date
    PostgreSQL reads from the text, [None] standing for the error it raises
    on a text it cannot read as a date. The query is modelled, and its
    properties are proved, for every such function. *)
Class DateParser : Type := TO_DATE : string → option date.

(** The reading of the fixed external representation of the data source:
    two digits, a slash, two digits, a slash, four digits, naming a day
    that exists. It is the parser of the sample data. *)
Definition to_date_ddmmyyyy : DateParser := λ s,
  match s with
  | String d1 (String d2 (String s1 (String m1 (String m2 (String s2
      (String y1 (String y2 (String y3 (String y4 EmptyString))))))))) =>
      a1 ← digit_of d1; a2 ← digit_of d2;
      b1 ← digit_of m1; b2 ← digit_of m2;
      c1 ← digit_of y1; c2 ← digit_of y2;
      c3 ← digit_of y3; c4 ← digit_of y4;
      let d := 10 * a1 + a2 in
      let m := 10 * b1 + b2 in
      let y := 1000 * c1 + 100 * c2 + 10 * c3 + c4 in
      if is_slash s1 && is_slash s2
         && (1 <=? y) && (1 <=? m) && (m <=? 12)
         && (1 <=? d) && (d <=? days_in_month y m)
      then Some (days_from_civil y m d) else None
  | _ => None
  end.

(** [DATE_TRUNC('week', d)::date]: the Monday on or before [d]. *)
Definition date_trunc_week (d : date) : date := d - weekday d.

(** A [timestamp] (without time zone) is a number of microseconds since
    1970-01-01 00:00:00. *)
Definition timestamp := Z.
Definition USECS_PER_DAY : Z := 86400000000.

(** [date + interval 'n days']: the date is promoted to the timestamp of
    its midnight, then whole days are added. *)
Definition date_pl_interval_days (d : date) (n : Z) : timestamp :=
  d * USECS_PER_DAY + n * USECS_PER_DAY.

(** ** numeric *)

(** A PostgreSQL [numeric]: the value is [n_digits / 10 ^ n_dscale]. *)
Record numeric : Type := Numeric { n_digits : Z; n_dscale : Z }.

Global Instance numeric_eq_dec : EqDecision numeric.
Proof. solve_decision. Defined.

Definition NBASE : Z := 10000.
Definition DEC_DIGITS : Z := 4.
Definition NUMERIC_MIN_SIG_DIGITS : Z := 16.
Definition NUMERIC_MIN_DISPLAY_SCALE : Z := 0.
Definition NUMERIC_MAX_DISPLAY_SCALE : Z := 1000.

(** Weight and first digit of the base-[NBASE] representation of a
    non-negative integer: [(0, 0)] for zero, as [select_div_scale] takes
    them for a zero operand. *)
Fixpoint nbase_split (fuel : nat) (n : Z) : Z * Z :=
  match fuel with
  | O => (0, n)
  | S fuel' =>
      if n <? NBASE then (0, n)
      else let '(w, d) := nbase_split fuel' (n / NBASE) in (w + 1, d)
  end.

Definition nbase_weight (n : Z) : Z := (nbase_split (Z.to_nat (Z.log2 n)) n).1.
Definition nbase_firstdigit (n : Z) : Z :=
  (nbase_split (Z.to_nat (Z.log2 n)) n).2.

(** The result scale PostgreSQL selects for [var1 / var2], for two
    operands of display scale 0: at least [NUMERIC_MIN_SIG_DIGITS]
    significant digits in the quotient. *)
Definition select_div_scale (var1 var2 : Z) : Z :=
  let qweight := nbase_weight var1 - nbase_weight var2 in
  let qweight :=
    if nbase_firstdigit var1 <=? nbase_firstdigit var2
    then qweight - 1 else qweight in
  let rscale := NUMERIC_MIN_SIG_DIGITS - qweight * DEC_DIGITS in
  let rscale := Z.max rscale NUMERIC_MIN_DISPLAY_SCALE in
  Z.min rscale NUMERIC_MAX_DISPLAY_SCALE.

(** [x / y] rounded to the nearest integer, halves away from zero
    ([y] positive). *)
Definition round_div (x y : Z) : Z :=
  Z.sgn x * ((2 * Z.abs x + y) / (2 * y)).

(** [a::numeric / b] for two bigint operands. *)
Definition numeric_div (a b : Z) : numeric :=
  let rscale := select_div_scale a b in
  Numeric (round_div (a * 10 ^ rscale) b) rscale.

(** [x * k] for an integer constant [k]. *)
Definition numeric_mul_int (x : numeric) (k : Z) : numeric :=
  Numeric (n_digits x * k) (n_dscale x).

(** [ROUND(x, scale)] for a non-negative [scale]. *)
Definition numeric_round (x : numeric) (scale : Z) : numeric :=
  if n_dscale x <=? scale
  then Numeric (n_digits x * 10 ^ (scale - n_dscale x)) scale
  else Numeric (round_div (n_digits x) (10 ^ (n_dscale x - scale))) scale.

(** [NULLIF(x, y)]. *)
Definition NULLIF (x y : Z) : option Z :=
  if decide (x = y) then None else Some x.

(** [ROUND(num::NUMERIC / NULLIF(den, 0) * 100, 1)]. *)
Definition rate (num den : Z) : option numeric :=
  d ← NULLIF den 0;
  Some (numeric_round (numeric_mul_int (numeric_div num d) 100) 1).

(** ** The relations of the data source *)

Definition PersonId := string.

(** Modelled from the spec: the column types of [viewings] and
    [prospects], whose schema is not part of the repository. The query
    shows ["personId"] of [viewings] to be nullable and ["Date"] to be text;
    ["Agent"] is a string, and in [prospects] ["Applied"] is an optional
    marker and ["Status"] a string, here nullable like ["personId"]. *)
Record viewing : Type := Viewing {
  v_personId : option PersonId;
  v_Agent : string;
  v_Date : string
}.

Record prospect : Type := Prospect {
  p_personId : option PersonId;
  p_Applied : option string;
  p_Status : option string
}.

(** ** The query of [load_weekly_data] *)

(** A row of the common table expression [cleaned_viewings]. *)
Record cleaned_viewing : Type := CleanedViewing {
  cv_personId : PersonId;
  cv_Agent : string;
  cv_viewing_date : date
}.

(** [SELECT "personId","Agent",TO_DATE("Date",'DD/MM/YYYY') FROM viewings
    WHERE "personId" IS NOT NULL]: the projection is evaluated on the rows
    that pass the filter, and an error in one row ends the query. *)
Fixpoint cleaned_viewings `{!DateParser} (viewings : list viewing)
  : outcome (list cleaned_viewing) :=
  match viewings with
  | [] => Ok []
  | v :: rest =>
      match v_personId v with
      | None => cleaned_viewings rest
      | Some pid =>
          match TO_DATE (v_Date v) with
          | None => Raise DataError
          | Some d =>
              rows ← cleaned_viewings rest;
              Ok (CleanedViewing pid (v_Agent v) d :: rows)
          end
      end
  end.

(** A row of [cleaned_viewings v LEFT JOIN prospects p]: the prospect side
    is [None] when no prospect matches. *)
Definition joined : Type := cleaned_viewing * option prospect.

(** [ON v."personId" = p."personId"]: one row per matching prospect, and
    one row with a null prospect when none matches. *)
Definition left_join (vs : list cleaned_viewing) (ps : list prospect)
  : list joined :=
  v ← vs;
  match filter (λ p, p_personId p = Some (cv_personId v)) ps with
  | [] => [(v, None)]
  | ms => (λ p, (v, Some p)) <$> ms
  end.

(** The grouping columns [(agent, week_start)] of [GROUP BY 1,2]. *)
Definition group_key : Type := string * date.

Definition key_of (j : joined) : group_key :=
  (cv_Agent j.1, date_trunc_week (cv_viewing_date j.1)).

(** [COUNT(DISTINCT e)]: the number of distinct non-null values of [e]. *)
Definition count_distinct (l : list (option PersonId)) : Z :=
  Z.of_nat (length (remove_dups (omap id l))).

(** [v."personId"]. *)
Definition viewed_case (j : joined) : option PersonId :=
  Some (cv_personId j.1).

(** [CASE WHEN p."Applied" IS NOT NULL THEN v."personId" END]. *)
Definition applied_case (j : joined) : option PersonId :=
  match j.2 with
  | Some p => if p_Applied p is Some _ then Some (cv_personId j.1) else None
  | None => None
  end.

(** [CASE WHEN p."Status"='Current' THEN v."personId" END]. *)
Definition current_case (j : joined) : option PersonId :=
  match j.2 with
  | Some p =>
      if decide (p_Status p = Some "Current")
      then Some (cv_personId j.1) else None
  | None => None
  end.

(** A row of the common table expression [weekly]. *)
Record weekly_row : Type := WeeklyRow {
  w_agent : string;
  w_week_start : date;
  w_total_viewings : Z;
  w_applications : Z;
  w_tenants : Z
}.

Definition group_of (k : group_key) (js : list joined) : list joined :=
  filter (λ j, key_of j = k) js.

Definition aggregate (js : list joined) (k : group_key) : weekly_row :=
  let g := group_of k js in
  {| w_agent := k.1;
     w_week_start := k.2;
     w_total_viewings := count_distinct (viewed_case <$> g);
     w_applications := count_distinct (applied_case <$> g);
     w_tenants := count_distinct (current_case <$> g) |}.

(** One row per group: a group exists for each key some joined row has. *)
Definition weekly (js : list joined) : list weekly_row :=
  aggregate js <$> remove_dups (key_of <$> js).

(** A row of the result: the WeeklyAgentMetric of the spec. *)
Record metric_row : Type := MetricRow {
  agent : string;
  week_start : date;
  week_end : timestamp;
  total_viewings : Z;
  applications : Z;
  tenants : Z;
  view_to_app_rate : option numeric;
  app_to_tenant_rate : option numeric;
  total_conversion_rate : option numeric
}.

(** The final select list. *)
Definition final_select (w : weekly_row) : metric_row :=
  {| agent := w_agent w;
     week_start := w_week_start w;
     week_end := date_pl_interval_days (w_week_start w) 6;
     total_viewings := w_total_viewings w;
     applications := w_applications w;
     tenants := w_tenants w;
     view_to_app_rate := rate (w_applications w) (w_total_viewings w);
     app_to_tenant_rate := rate (w_tenants w) (w_applications w);
     total_conversion_rate := rate (w_tenants w) (w_total_viewings w) |}.

(** The collation of the database: how [ORDER BY] compares two strings.
    A deterministic collation is a decidable total order on strings. The
    query is modelled, and its properties are proved, for every such
    collation. *)
Class Collation : Type := {
  collate_le : relation string;
  collate_le_dec :: RelDecision collate_le;
  collate_le_po :: PartialOrder collate_le;
  collate_le_total :: Total collate_le
}.

(** The collation [C]: strings are compared byte by byte. It is the
    collation of the sample data. *)
Definition collate_C : Collation :=
  {| collate_le := String.le;
     collate_le_dec := String.le_dec;
     collate_le_po := String.le_po;
     collate_le_total := String.le_total |}.

(** [ORDER BY week_start, agent]. *)
Definition order_le `{!Collation} (r1 r2 : metric_row) : Prop :=
  week_start r1 < week_start r2
  ∨ (week_start r1 = week_start r2 ∧ collate_le (agent r1) (agent r2)).

Global Instance order_le_dec `{!Collation} : RelDecision order_le.
Proof. intros r1 r2. unfold order_le. apply _. Defined.

(** [load_weekly_data()]: the rows [pd.read_sql] returns, or the error of
    the query. *)
Definition load_weekly_data `{!DateParser, !Collation}
  (viewings : list viewing)
  (prospects : list prospect) : outcome (list metric_row) :=
  vs ← cleaned_viewings viewings;
  Ok (merge_sort order_le (final_select <$> weekly (left_join vs prospects))).

(** ** The week selection of the script *)

(** A pandas [Timestamp]: nanoseconds since 1970-01-01 00:00:00. *)
Definition Timestamp := Z.
Definition NS_PER_DAY : Z := 86400000000000.

(** [pd.to_datetime] of a [datetime.date]: the midnight of that day. *)
Definition to_datetime (d : date) : Timestamp := d * NS_PER_DAY.

(** The [datetime64[ns]] value pandas holds for an SQL [timestamp]. *)
Definition of_sql_timestamp (t : timestamp) : Timestamp := t * 1000.

(** [Timestamp.normalize()]: the midnight of the same day. *)
Definition normalize (t : Timestamp) : Timestamp := t - t mod NS_PER_DAY.

(** [Timestamp.date()]. *)
Definition Timestamp_date (t : Timestamp) : date := t / NS_PER_DAY.

(** [Timestamp.weekday()]. *)
Definition Timestamp_weekday (t : Timestamp) : Z := weekday (Timestamp_date t).

(** [timedelta(days=n)] and [pd.to_timedelta(n, unit="d")]. *)
Definition timedelta_days (n : Z) : Z := n * NS_PER_DAY.

(** Line 87: [pd.to_datetime(sorted(df["week_start"].unique()))]. The
    order in which the distinct values are met does not matter: they are
    sorted next. *)
Definition valid_weeks (df : list metric_row) : list Timestamp :=
  to_datetime <$> merge_sort Z.le (remove_dups (week_start <$> df)).

(** Line 88. *)
Definition current_index (valid : list Timestamp) : Z :=
  Z.of_nat (length valid) - 1.

(** [st.session_state]: the value under ["selected_index"], [None] while
    the key is absent. *)
Definition session_state := option Z.

(** Lines 90-91. The result is the session state and the index it holds. *)
Definition init_selection (valid : list Timestamp) (ss : session_state)
  : session_state * Z :=
  match ss with
  | Some i => (ss, i)
  | None => (Some (current_index valid), current_index valid)
  end.

(** [l[i]] on a pandas Index: a negative [i] counts from the end, an [i]
    outside [[-len, len)] raises [IndexError]. *)
Definition getitem {A} (l : list A) (i : Z) : outcome A :=
  let n := Z.of_nat (length l) in
  let j := if i <? 0 then i + n else i in
  if (0 <=? j) && (j <? n)
  then match l !! Z.to_nat j with
       | Some a => Ok a
       | None => Raise IndexError
       end
  else Raise IndexError.

(** Lines 90-93: the stored index is read (and first set, in a fresh
    session) and [valid_weeks] is indexed with it. *)
Definition selected_week (valid : list Timestamp) (ss : session_state)
  : session_state * outcome Timestamp :=
  let '(ss1, i) := init_selection valid ss in
  (ss1, getitem valid i).

(** [argmin]: the position of the first occurrence of the least value;
    [ValueError] on an empty sequence. *)
Fixpoint argmin_go (l : list Z) (i : nat) (best : Z) (best_i : nat) : nat :=
  match l with
  | [] => best_i
  | x :: l' =>
      if x <? best then argmin_go l' (S i) x i
      else argmin_go l' (S i) best best_i
  end.

Definition argmin (l : list Z) : outcome nat :=
  match l with
  | [] => Raise ValueError
  | x :: l' => Ok (argmin_go l' 1 x 0)
  end.

(** [list.index(x)]: the first position of [x]; [ValueError] when [x] is
    not in the list. *)
Fixpoint list_index (l : list Timestamp) (x : Timestamp) : outcome nat :=
  match l with
  | [] => Raise ValueError
  | y :: l' => if decide (y = x) then Ok O else S <$> list_index l' x
  end.

(** Line 99: the Monday of the week of the picked date. *)
Definition snap_week (manual_date : Timestamp) : Timestamp :=
  manual_date - timedelta_days (Timestamp_weekday manual_date).

(** Line 102. *)
Definition nearest_week (valid : list Timestamp) (snap : Timestamp)
  : outcome Timestamp :=
  k ← argmin ((λ w, Z.abs (w - snap)) <$> valid);
  getitem valid (Z.of_nat k).

(** Lines 98-106: the week the picked date snaps to, and the index stored
    for it. *)
Definition jump_to_date (valid : list Timestamp) (picked : date)
  : outcome (Timestamp * Z) :=
  let manual_date := to_datetime picked in
  nearest ← nearest_week valid (snap_week manual_date);
  idx ← list_index valid nearest;
  Ok (nearest, Z.of_nat idx).

(** What the script hands to the rendering code below line 120. *)
Record week_view : Type := WeekView {
  view_selected_week : Timestamp;
  view_week_df : list metric_row;
  view_start_of_week : Timestamp;
  view_end_of_week : Timestamp;
  view_no_data : bool   (* line 125: the warning is shown and the run stops *)
}.

(** Line 112: the [week_start] column as normalized timestamps. *)
Definition week_start_column (r : metric_row) : Timestamp :=
  normalize (to_datetime (week_start r)).

(** Lines 112-127. *)
Definition week_filter (df : list metric_row) (selected : Timestamp)
  : week_view :=
  let selected := normalize selected in
  let week_df := filter (λ r, week_start_column r = selected) df in
  let start_of_week :=
    match week_df with
    | r :: _ => week_start_column r
    | [] => selected
    end in
  {| view_selected_week := selected;
     view_week_df := week_df;
     view_start_of_week := start_of_week;
     view_end_of_week := start_of_week + timedelta_days 6;
     view_no_data := bool_decide (week_df = []) |}.

(** Lines 87-127, one run of the script on the loaded table [df]:
    [picked] is the date the date input returns, [None] when the user has
    not touched it and it returns its default, the day of the week read at
    line 93. The session state is returned as the run leaves it. *)
Definition script (ss : session_state) (df : list metric_row)
  (picked : option date) : session_state * outcome week_view :=
  let valid := valid_weeks df in
  let '(ss1, selected) := selected_week valid ss in
  match selected with
  | Raise e => (ss1, Raise e)
  | Ok selected =>
      let manual_date := default (Timestamp_date selected) picked in
      match jump_to_date valid manual_date with
      | Raise e => (ss1, Raise e)
      | Ok (nearest, idx) => (Some idx, Ok (week_filter df nearest))
      end
  end.

(** The whole request: the table is loaded, then the script runs on it. *)
Definition request `{!DateParser, !Collation} (ss : session_state)
  (viewings : list viewing)
  (prospects : list prospect) (picked : option date)
  : session_state * outcome week_view :=
  match load_weekly_data viewings prospects with
  | Raise e => (ss, Raise e)
  | Ok df => script ss df picked
  end.

(** ** The caption below the table *)

(** [Series.nunique()]: the number of distinct values of a column. *)
Definition nunique (col : list Timestamp) : Z :=
  Z.of_nat (length (remove_dups col)).

(** [Series.min()] and [Series.max()]: [None] is the [NaT] of an empty
    column. *)
Definition column_min (col : list Timestamp) : option Timestamp :=
  match col with
  | [] => None
  | t :: col' => Some (foldr Z.min t col')
  end.

Definition column_max (col : list Timestamp) : option Timestamp :=
  match col with
  | [] => None
  | t :: col' => Some (foldr Z.max t col')
  end.

(** Lines 197-199: the three values the caption prints, read from the
    [week_start] column as line 112 left it. *)
Definition caption_values (df : list metric_row)
  : Z * option Timestamp * option Timestamp :=
  let col := week_start_column <$> df in
  (nunique col, column_min col, column_max col).

(** ** The highlight of the week *)

(** A binary64 float, as the columns pandas makes of the numeric columns
    of the query hold them: a finite float is the rational it equals. *)
Inductive float64 : Type :=
  | NaN
  | NegInf
  | Fin (q : Q)
  | PosInf.

(** [num / den] rounded to the nearest integer, halves to the even one. *)
Definition round_half_even (num den : Z) : Z :=
  let m := num / den in
  let r := num mod den in
  if 2 * r <? den then m
  else if den <? 2 * r then m + 1
  else if Z.even m then m else m + 1.

(** The exponent [e] with [2 ^ e ≤ n / d < 2 ^ (e + 1)], for positive
    [n] and [d]. *)
Definition floor_log2_ratio (n d : Z) : Z :=
  let e0 := Z.log2 n - Z.log2 d in
  let reaches := if 0 <=? e0 then d * 2 ^ e0 <=? n else d <=? n * 2 ^ (- e0) in
  if reaches then e0 else e0 - 1.

(** The binary64 float nearest to [n / d], for positive [n] and [d]: 53
    bits of precision, the last place no finer than [2 ^ -1074], infinity
    from [2 ^ 1024] on. *)
Definition binary64_of_ratio (n d : Z) : float64 :=
  let e := floor_log2_ratio n d in
  let q := Z.min (52 - e) 1074 in
  if 0 <=? q
  then Fin (round_half_even (n * 2 ^ q) d # Z.to_pos (2 ^ q))
  else
    let v := round_half_even n (d * 2 ^ (- q)) * 2 ^ (- q) in
    if 2 ^ 1024 <=? v then PosInf else Fin (inject_Z v).

Definition float64_opp (x : float64) : float64 :=
  match x with
  | NaN => NaN
  | NegInf => PosInf
  | Fin q => Fin (- q)
  | PosInf => NegInf
  end.

(** [float(Decimal)]: the float nearest to the value of a numeric. *)
Definition float64_of_numeric (x : numeric) : float64 :=
  let n := Z.abs (n_digits x) * 10 ^ Z.max (- n_dscale x) 0 in
  let d := 10 ^ Z.max (n_dscale x) 0 in
  if n =? 0 then Fin 0
  else if n_digits x <? 0 then float64_opp (binary64_of_ratio n d)
  else binary64_of_ratio n d.

(** What [pd.read_sql] (with its default [coerce_float]) makes of a
    nullable numeric value: NULL is [NaN]. *)
Definition coerce_float (o : option numeric) : float64 :=
  match o with
  | None => NaN
  | Some x => float64_of_numeric x
  end.

Definition is_nan (x : float64) : bool :=
  match x with NaN => true | _ => false end.

(** [x < y] on floats that are not [NaN]. *)
Definition float64_ltb (x y : float64) : bool :=
  match x, y with
  | NaN, _ | _, NaN => false
  | NegInf, NegInf => false
  | NegInf, _ => true
  | _, NegInf => false
  | PosInf, _ => false
  | _, PosInf => true
  | Fin a, Fin b => if (a ?= b)%Q is Lt then true else false
  end.

(** [argmax]: the position of the first occurrence of the greatest
    value. *)
Fixpoint argmax_go (l : list float64) (i : nat) (best : float64)
  (best_i : nat) : nat :=
  match l with
  | [] => best_i
  | x :: l' =>
      if float64_ltb best x then argmax_go l' (S i) x i
      else argmax_go l' (S i) best best_i
  end.

(** [Series.idxmax()] by position: the values that are [NaN] are taken as
    minus infinity, and a column with no other value (an empty one too)
    has no answer: [None] stands for the exception that ends the run. *)
Definition idxmax (col : list float64) : option nat :=
  if forallb is_nan col then None
  else
    match (λ x, if is_nan x then NegInf else x) <$> col with
    | [] => None
    | x :: l' => Some (argmax_go l' 1 x 0)
    end.

(** Line 133: [week_df.loc[week_df["total_conversion_rate"].idxmax()]].
    The labels of the table are distinct, so the label [idxmax] returns
    names the row at the position of the greatest value. *)
Definition top_row (week_df : list metric_row) : option metric_row :=
  k ← idxmax (coerce_float ∘ total_conversion_rate <$> week_df);
  week_df !! k.

(** Line 134. *)
Definition top_agent (week_df : list metric_row) : option string :=
  agent <$> top_row week_df.

(** The floats of the percentages [t / 10] and [(t + 1) / 10] are
    finite and in this order. *)
Definition tenth_step_ok (t : Z) : bool :=
  match float64_of_numeric (Numeric t 1),
        float64_of_numeric (Numeric (t + 1) 1) with
  | Fin a, Fin b => if (a ?= b)%Q is Lt then true else false
  | _, _ => false
  end.

(** The finite value of a float, 0 for the others. *)
Definition float64_value (x : float64) : Q :=
  match x with Fin q => q | _ => 0%Q end.

(** ** The properties, in the terms of the spec *)

(** The percentage [100 * num / den] in tenths, rounded to the nearest
    tenth with halves up: what the spec calls the ratio times 100 rounded to
    one decimal place. *)
Definition pct_1dp (num den : Z) : Z := (2 * (1000 * num) + den) / (2 * den).

(** The value of [x] lies between the integers [lo] and [hi]. *)
Definition numeric_in (lo hi : Z) (x : numeric) : Prop :=
  lo * 10 ^ n_dscale x ≤ n_digits x ≤ hi * 10 ^ n_dscale x.

(** The group of a cleaned viewing. *)
Definition cv_key (v : cleaned_viewing) : group_key :=
  (cv_Agent v, date_trunc_week (cv_viewing_date v)).

(** The group of a result row. *)
Definition row_key (r : metric_row) : group_key := (agent r, week_start r).

(** The viewing events of a group, read off the raw relation: the agent is
    the group's and the date falls in the group's week. *)
Definition in_group `{!DateParser} (k : group_key) (v : viewing) : Prop :=
  v_Agent v = k.1 ∧ date_trunc_week <$> TO_DATE (v_Date v) = Some k.2.

Global Instance in_group_dec `{!DateParser} k v : Decision (in_group k v).
Proof. unfold in_group. apply _. Defined.

(** The distinct persons of the viewing events of a group. *)
Definition group_persons `{!DateParser} (viewings : list viewing)
  (k : group_key)
  : list PersonId :=
  remove_dups (omap v_personId (filter (in_group k) viewings)).

(** Some prospect record of the person carries an "applied" marker. *)
Definition has_applied (prospects : list prospect) (pid : PersonId) : Prop :=
  Exists (λ p, p_personId p = Some pid ∧ is_Some (p_Applied p)) prospects.

(** Some prospect record of the person has status "Current". *)
Definition is_current (prospects : list prospect) (pid : PersonId) : Prop :=
  Exists (λ p, p_personId p = Some pid ∧ p_Status p = Some "Current") prospects.

Global Instance has_applied_dec ps pid : Decision (has_applied ps pid).
Proof. unfold has_applied. apply _. Defined.
Global Instance is_current_dec ps pid : Decision (is_current ps pid).
Proof. unfold is_current. apply _. Defined.

(** The query returned rows. *)
Definition is_Ok {A} (m : outcome A) : Prop := ∃ a, m = Ok a.

(** A viewing row the query reads a date from, and cannot. *)
Definition unparseable `{!DateParser} (v : viewing) : Prop :=
  is_Some (v_personId v) ∧ TO_DATE (v_Date v) = None.

Global Instance unparseable_dec `{!DateParser} v : Decision (unparseable v).
Proof. unfold unparseable. apply _. Defined.

(** The ordering of the result, strict: an earlier week first, and within
    a week a smaller, different agent first. *)
Definition week_agent_lt `{!Collation} (r1 r2 : metric_row) : Prop :=
  week_start r1 < week_start r2
  ∨ (week_start r1 = week_start r2
     ∧ collate_le (agent r1) (agent r2) ∧ agent r1 ≠ agent r2).

(** Within a week, an earlier and different agent first. *)
Definition agent_lt `{!Collation} (r1 r2 : metric_row) : Prop :=
  collate_le (agent r1) (agent r2) ∧ agent r1 ≠ agent r2.

(** ** Sample data *)

(** Viewings with two agents over two weeks; the fourth row has no
    person, so its date is never read. *)
Definition sample_viewings : list viewing :=
  [ Viewing (Some "p1") "B" "10/01/2024";
    Viewing (Some "p2") "A" "11/01/2024";
    Viewing (Some "p1") "A" "08/01/2024";
    Viewing None "A" "n/a";
    Viewing (Some "p3") "A" "02/01/2024";
    Viewing (Some "p1") "A" "09/01/2024" ].

(** Person p1 has two prospect records. *)
Definition sample_prospects : list prospect :=
  [ Prospect (Some "p1") (Some "05/01/2024") (Some "Current");
    Prospect (Some "p1") (Some "05/01/2024") (Some "Current");
    Prospect (Some "p2") None (Some "Lost") ].

Definition sample_row_A1 : metric_row :=
  MetricRow "A" 19723 (19729 * USECS_PER_DAY) 1 0 0
    (Some (Numeric 0 1)) None (Some (Numeric 0 1)).
Definition sample_row_A2 : metric_row :=
  MetricRow "A" 19730 (19736 * USECS_PER_DAY) 2 1 1
    (Some (Numeric 500 1)) (Some (Numeric 1000 1)) (Some (Numeric 500 1)).
Definition sample_row_B2 : metric_row :=
  MetricRow "B" 19730 (19736 * USECS_PER_DAY) 1 1 1
    (Some (Numeric 1000 1)) (Some (Numeric 1000 1)) (Some (Numeric 1000 1)).
Definition sample_rows : list metric_row :=
  [sample_row_A1; sample_row_A2; sample_row_B2].

(** The weeks of 2024-01-01, 2024-01-08 and 2024-01-15. *)
Definition three_weeks : list Timestamp :=
  to_datetime <$> [19723; 19730; 19737].

(** One viewing by a person without any prospect record, and the row the
    query makes of it. *)
Definition lone_viewing : list viewing :=
  [ Viewing (Some "p1") "A" "08/01/2024" ].
Definition lone_row : metric_row :=
  MetricRow "A" 19730 (19736 * USECS_PER_DAY) 1 0 0
    (Some (Numeric 0 1)) None (Some (Numeric 0 1)).

(** A second row whose date is not a date. *)
Definition dirty_viewings : list viewing :=
  [ Viewing (Some "p1") "A" "08/01/2024";
    Viewing (Some "p2") "A" "unknown" ].

(** Three persons viewed with agent A in one week; one applied, the two
    others are tenants without an "applied" marker. *)
Definition tenant_viewings : list viewing :=
  [ Viewing (Some "p1") "A" "08/01/2024";
    Viewing (Some "p2") "A" "09/01/2024";
    Viewing (Some "p3") "A" "10/01/2024" ].
Definition tenant_prospects : list prospect :=
  [ Prospect (Some "p1") (Some "yes") (Some "Applied");
    Prospect (Some "p2") None (Some "Current");
    Prospect (Some "p3") None (Some "Current") ].
Definition tenant_row : metric_row :=
  MetricRow "A" 19730 (19736 * USECS_PER_DAY) 3 1 2
    (Some (Numeric 333 1)) (Some (Numeric 2000 1)) (Some (Numeric 667 1)).

(** ** Rounding *)

Lemma round_div_nonneg x y :
  0 ≤ x → 0 < y → round_div x y = (2 * x + y) / (2 * y).
Proof.
  intros Hx Hy. unfold round_div.
  destruct (decide (x = 0)) as [->|Hne].
  - simpl. symmetry. apply Z.div_small. lia.
  - rewrite Z.sgn_pos, Z.abs_eq by lia. lia.
Qed.

Lemma round_div_bounds x y :
  0 ≤ x → 0 < y →
  2 * y * round_div x y ≤ 2 * x + y < 2 * y * (round_div x y + 1).
Proof.
  intros Hx Hy. rewrite round_div_nonneg by done.
  pose proof (Z.mul_div_le (2 * x + y) (2 * y)).
  pose proof (Z.mul_succ_div_gt (2 * x + y) (2 * y)).
  lia.
Qed.

Lemma round_div_unique x y m :
  0 ≤ x → 0 < y → 2 * y * m ≤ 2 * x + y < 2 * y * (m + 1) → round_div x y = m.
Proof.
  intros Hx Hy Hm. rewrite round_div_nonneg by done.
  symmetry. apply (Z.div_unique_pos _ _ m (2 * x + y - 2 * y * m)); lia.
Qed.

(** Rounding a quotient that was first rounded at a finer even grain [T]
    gives the rounding of the exact quotient, when the divisor is below the
    grain. *)
Lemma round_div_twice X b T :
  0 ≤ X → 0 < b < T → Z.even T = true →
  round_div (round_div (X * T) b) T = round_div X b.
Proof.
  intros HX Hb HT.
  apply Z.even_spec in HT. destruct HT as [h ->].
  pose proof (round_div_bounds X b ltac:(lia) ltac:(lia)) as Hm.
  pose proof (round_div_bounds (X * (2 * h)) b ltac:(nia) ltac:(lia)) as Hq.
  set (m := round_div X b) in *. set (q := round_div (X * (2 * h)) b) in *.
  assert (0 ≤ q).
  { unfold q. rewrite round_div_nonneg by nia. apply Z.div_pos; nia. }
  apply round_div_unique; [done|lia|].
  split.
  - (* (2m-1) b <= 2X  so (2m-1) h b <= 2 X h ; q >= ... *)
    assert ((2 * m - 1) * h ≤ q); [|lia].
    apply Z.lt_succ_r. unfold Z.succ.
    apply (Z.mul_lt_mono_pos_l (2 * b)); [lia|]. nia.
  - assert (q < (2 * m + 1) * h); [|lia].
    apply (Z.mul_lt_mono_pos_l (2 * b)); [lia|]. nia.
Qed.

(** ** The scale of a quotient *)

Lemma nbase_split_spec fuel n :
  0 ≤ n < 2 ^ (Z.of_nat fuel + 1) →
  0 ≤ (nbase_split fuel n).1
  ∧ n < NBASE ^ ((nbase_split fuel n).1 + 1)
  ∧ (0 < n → NBASE ^ (nbase_split fuel n).1 ≤ n).
Proof.
  revert n. induction fuel as [|fuel IH]; intros n Hn.
  - simpl in *. unfold NBASE. lia.
  - cbn [nbase_split]. destruct (Z.ltb_spec n NBASE) as [Hlt|Hge].
    + simpl. unfold NBASE in *. lia.
    + assert (0 ≤ n / NBASE < 2 ^ (Z.of_nat fuel + 1)) as Hrec.
      { split; [apply Z.div_pos; unfold NBASE; lia|].
        apply Z.div_lt_upper_bound; [unfold NBASE; lia|].
        replace (Z.of_nat (S fuel) + 1) with (Z.succ (Z.of_nat fuel + 1)) in Hn by lia.
        rewrite Z.pow_succ_r in Hn by lia. unfold NBASE. lia. }
      specialize (IH _ Hrec).
      destruct (nbase_split fuel (n / NBASE)) as [w d]. simpl in *.
      destruct IH as (Hw & Hup & Hlo).
      assert (0 < n / NBASE).
      { apply Z.div_str_pos. unfold NBASE in *. lia. }
      pose proof (Z.mul_div_le n NBASE ltac:(unfold NBASE; lia)).
      pose proof (Z.mul_succ_div_gt n NBASE ltac:(unfold NBASE; lia)).
      split; [lia|]. split.
      * replace (w + 1 + 1) with (Z.succ (w + 1)) by lia.
        rewrite Z.pow_succ_r by lia. unfold NBASE in *. lia.
      * intros _. replace (w + 1) with (Z.succ w) by lia.
        rewrite Z.pow_succ_r by lia. specialize (Hlo ltac:(lia)).
        unfold NBASE in *. lia.
Qed.

Lemma nbase_weight_spec n :
  0 ≤ n →
  0 ≤ nbase_weight n
  ∧ n < NBASE ^ (nbase_weight n + 1)
  ∧ (0 < n → NBASE ^ nbase_weight n ≤ n).
Proof.
  intros Hn. unfold nbase_weight. apply nbase_split_spec.
  split; [done|]. rewrite Z2Nat.id by apply Z.log2_nonneg.
  destruct (decide (n = 0)) as [->|]; [done|].
  apply Z.log2_spec. lia.
Qed.

Lemma nbase_weight_small n : 0 ≤ n < 10 ^ 12 → 0 ≤ nbase_weight n ≤ 2.
Proof.
  intros Hn. destruct (nbase_weight_spec n) as (H0 & _ & Hlo); [lia|].
  split; [done|].
  destruct (decide (n = 0)) as [->|]; [done|].
  specialize (Hlo ltac:(lia)).
  destruct (decide (nbase_weight n ≤ 2)); [done|].
  assert (NBASE ^ 3 ≤ NBASE ^ nbase_weight n).
  { apply Z.pow_le_mono_r; unfold NBASE; lia. }
  unfold NBASE in *. lia.
Qed.

(** For counts below [10 ^ 12] the quotient carries enough digits for the
    next rounding: the scale is at least 4 and the divisor is below
    [10 ^ (scale - 3)]. *)
Lemma select_div_scale_small a b :
  0 ≤ a < 10 ^ 12 → 0 < b < 10 ^ 12 →
  4 ≤ select_div_scale a b ∧ b < 10 ^ (select_div_scale a b - 3).
Proof.
  intros Ha Hb.
  pose proof (nbase_weight_small a Ha) as Hw1.
  pose proof (nbase_weight_small b ltac:(lia)) as Hw2.
  destruct (nbase_weight_spec b) as (_ & Hup & _); [lia|].
  unfold select_div_scale, NUMERIC_MIN_SIG_DIGITS, DEC_DIGITS,
    NUMERIC_MIN_DISPLAY_SCALE, NUMERIC_MAX_DISPLAY_SCALE.
  set (w1 := nbase_weight a) in *. set (w2 := nbase_weight b) in *.
  set (q := if nbase_firstdigit a <=? nbase_firstdigit b
            then w1 - w2 - 1 else w1 - w2).
  assert (w1 - w2 - 1 ≤ q ≤ w1 - w2) as Hq.
  { unfold q. destruct (_ <=? _); lia. }
  assert (Z.min (Z.max (16 - q * 4) 0) 1000 = 16 - q * 4) as -> by lia.
  split; [lia|].
  eapply Z.lt_le_trans; [exact Hup|].
  unfold NBASE. change 10000 with (10 ^ 4).
  rewrite <- Z.pow_mul_r by lia.
  apply Z.pow_le_mono_r; lia.
Qed.

Lemma rate_small a b :
  0 ≤ a < 10 ^ 12 → 0 < b < 10 ^ 12 →
  rate a b = Some (Numeric (pct_1dp a b) 1).
Proof.
  intros Ha Hb. unfold rate, NULLIF.
  destruct (decide (b = 0)) as [|_]; [lia|]. simpl.
  destruct (select_div_scale_small a b Ha Hb) as [Hs HbT].
  unfold numeric_round, numeric_mul_int, numeric_div. simpl.
  set (s := select_div_scale a b) in *.
  destruct (Z.leb_spec s 1) as [|_]; [lia|].
  do 2 f_equal.
  set (T := 10 ^ (s - 3)) in *.
  assert (0 < T) by (apply Z.pow_pos_nonneg; lia).
  assert (10 ^ s = 1000 * T) as ->.
  { unfold T. replace s with (3 + (s - 3)) at 1 by lia.
    rewrite Z.pow_add_r by lia. done. }
  assert (10 ^ (s - 1) = 100 * T) as ->.
  { unfold T. replace (s - 1) with (2 + (s - 3)) by lia.
    rewrite Z.pow_add_r by lia. done. }
  assert (Z.even T = true) as HT.
  { unfold T. replace (s - 3) with (Z.succ (s - 4)) by lia.
    rewrite Z.pow_succ_r by lia. by rewrite Z.even_mul. }
  replace (a * (1000 * T)) with (1000 * a * T) by lia.
  pose proof (round_div_twice (1000 * a) b T ltac:(lia) ltac:(lia) HT) as Htw.
  assert (0 ≤ round_div (1000 * a * T) b) as Hq.
  { rewrite round_div_nonneg by nia. apply Z.div_pos; nia. }
  transitivity (round_div (round_div (1000 * a * T) b) T).
  - rewrite !(round_div_nonneg _ (100 * T)), !(round_div_nonneg _ T) by lia.
    replace (2 * (round_div (1000 * a * T) b * 100) + 100 * T)
      with (100 * (2 * round_div (1000 * a * T) b + T)) by lia.
    replace (2 * (100 * T)) with (100 * (2 * T)) by lia.
    by rewrite Z.div_mul_cancel_l by lia.
  - rewrite Htw, round_div_nonneg by lia. done.
Qed.

(** ** The relations of the query *)

Section properties.
Context `{!DateParser, !Collation}.

Section query.
Implicit Types (vs : list viewing) (cvs : list cleaned_viewing)
  (ps : list prospect) (js : list joined) (k : group_key).

(** *** [cleaned_viewings] *)

Lemma cleaned_viewings_Ok vs :
  Forall (λ v, v_personId v = None ∨ is_Some (TO_DATE (v_Date v))) vs →
  ∃ cvs, cleaned_viewings vs = Ok cvs.
Proof.
  induction 1 as [|v vs Hv _ [cvs IH]]; [by eexists|].
  simpl. destruct Hv as [->|[d ->]].
  - eauto.
  - destruct (v_personId v); rewrite IH; simpl; eauto.
Qed.

Lemma cleaned_viewings_Raise vs :
  Exists (λ v, is_Some (v_personId v) ∧ TO_DATE (v_Date v) = None) vs →
  cleaned_viewings vs = Raise DataError.
Proof.
  induction 1 as [v vs [[pid Hp] Hd]|v vs _ IH]; simpl.
  - by rewrite Hp, Hd.
  - rewrite IH. destruct (v_personId v), (TO_DATE (v_Date v)); done.
Qed.

Lemma elem_of_cleaned_viewings vs cvs cv :
  cleaned_viewings vs = Ok cvs →
  cv ∈ cvs ↔
  ∃ v, v ∈ vs ∧ v_personId v = Some (cv_personId cv)
       ∧ v_Agent v = cv_Agent cv
       ∧ TO_DATE (v_Date v) = Some (cv_viewing_date cv).
Proof.
  revert cvs. induction vs as [|v vs IH]; intros cvs Hc; simpl in Hc.
  - simplify_eq. split; [by intros ?%elem_of_nil|].
    by intros (? & ?%elem_of_nil & _).
  - destruct (v_personId v) as [pid|] eqn:Hp.
    + destruct (TO_DATE (v_Date v)) as [d|] eqn:Hd; [|done].
      destruct (cleaned_viewings vs) as [cvs'|] eqn:Hrec; [|done].
      simpl in Hc. simplify_eq. rewrite elem_of_cons, (IH cvs') by done.
      split.
      * intros [->|(v' & ? & ?)]; [|exists v'; split; [by right|done]].
        exists v. simpl. split; [by left|done].
      * intros (v' & [->|?]%elem_of_cons & Hp' & Ha & Hd'); [|right; eauto].
        left. destruct cv. simpl in *. congruence.
    + rewrite (IH cvs) by done. split.
      * intros (v' & ? & ?). exists v'. split; [by right|done].
      * intros (v' & [->|?]%elem_of_cons & Hp' & ?); [congruence|eauto].
Qed.

(** *** The left join *)

Lemma elem_of_join_rows ps v (j : joined) :
  j ∈ match filter (λ p, p_personId p = Some (cv_personId v)) ps with
      | [] => [(v, None)]
      | ms => (λ p, (v, Some p)) <$> ms
      end ↔
  j.1 = v ∧
  match j.2 with
  | Some p => p ∈ ps ∧ p_personId p = Some (cv_personId v)
  | None => ∀ p, p ∈ ps → p_personId p ≠ Some (cv_personId v)
  end.
Proof.
  set (P := λ p, p_personId p = Some (cv_personId v)).
  assert (∀ p, p ∈ filter P ps ↔ p ∈ ps ∧ p_personId p = Some (cv_personId v))
    as Hfilter by (intros p; rewrite list_elem_of_filter; unfold P; tauto).
  destruct j as [v' op]. simpl.
  transitivity ((v', op) ∈ if decide (filter P ps = []) then [(v, None)]
                           else (λ p, (v, Some p)) <$> filter P ps).
  { by destruct (filter P ps). }
  destruct (decide (filter P ps = [])) as [Hf|Hf].
  - rewrite Hf in Hfilter. rewrite list_elem_of_singleton. split.
    + intros [= -> ->]. split; [done|]. intros p Hp Heq.
      by apply (elem_of_nil p), Hfilter.
    + intros [-> Hop]. destruct op as [p|]; [|done].
      by destruct (proj1 (elem_of_nil p)); apply Hfilter.
  - rewrite list_elem_of_fmap. split.
    + intros (p & [= -> ->] & Hp). split; [done|]. by apply Hfilter.
    + intros [-> Hop]. destruct op as [p|].
      * exists p. split; [done|]. by apply Hfilter.
      * destruct (filter P ps) as [|p0 ms]; [done|].
        destruct (Hop p0); apply Hfilter; left.
Qed.

Lemma elem_of_left_join cvs ps (j : joined) :
  j ∈ left_join cvs ps ↔
  j.1 ∈ cvs ∧
  match j.2 with
  | Some p => p ∈ ps ∧ p_personId p = Some (cv_personId j.1)
  | None => ∀ p, p ∈ ps → p_personId p ≠ Some (cv_personId j.1)
  end.
Proof.
  unfold left_join. rewrite list_elem_of_bind. split.
  - intros (v & [<- Hop]%elem_of_join_rows & Hv). done.
  - intros [Hv Hop]. exists (j.1). split; [|done].
    by apply elem_of_join_rows.
Qed.

(** Every cleaned viewing survives the join, at least once. *)
Lemma left_join_covers cvs ps v :
  v ∈ cvs → ∃ op, (v, op) ∈ left_join cvs ps.
Proof.
  intros Hv.
  destruct (decide (Exists (λ p, p_personId p = Some (cv_personId v)) ps))
    as [(p & Hp & Heq)%Exists_exists|Hno].
  - exists (Some p). by apply elem_of_left_join.
  - exists None. apply elem_of_left_join. split; [done|]. simpl.
    intros p Hp Heq. apply Hno, Exists_exists. eauto.
Qed.

Lemma elem_of_join_keys cvs ps k :
  k ∈ key_of <$> left_join cvs ps ↔ ∃ v, v ∈ cvs ∧ cv_key v = k.
Proof.
  rewrite list_elem_of_fmap. split.
  - intros ([v op] & -> & [Hv _]%elem_of_left_join). by exists v.
  - intros (v & Hv & <-). destruct (left_join_covers cvs ps v Hv) as [op Hop].
    by exists (v, op).
Qed.
End query.

(** *** COUNT(DISTINCT ...) *)

Lemma elem_of_omap_id {A} (l : list (option A)) x : x ∈ omap id l ↔ Some x ∈ l.
Proof.
  rewrite list_elem_of_omap. split; [by intros (? & ? & [= ->])|]. by exists (Some x).
Qed.

Lemma count_distinct_nonneg l : 0 ≤ count_distinct l.
Proof. unfold count_distinct. lia. Qed.

Lemma count_distinct_spec l (k : list PersonId) :
  NoDup k → (∀ x, x ∈ k ↔ Some x ∈ l) → count_distinct l = Z.of_nat (length k).
Proof.
  intros Hk Hiff. unfold count_distinct. f_equal. apply Permutation_length.
  apply NoDup_Permutation; [apply NoDup_remove_dups|done|].
  intros x. by rewrite elem_of_remove_dups, elem_of_omap_id, Hiff.
Qed.

Lemma count_distinct_mono l1 l2 :
  (∀ x, Some x ∈ l1 → Some x ∈ l2) → count_distinct l1 ≤ count_distinct l2.
Proof.
  intros Hsub. unfold count_distinct. apply inj_le, submseteq_length.
  apply NoDup_submseteq; [apply NoDup_remove_dups|].
  intros x. rewrite !elem_of_remove_dups, !elem_of_omap_id. apply Hsub.
Qed.

Lemma count_distinct_pos l x : Some x ∈ l → 0 < count_distinct l.
Proof.
  intros Hx. unfold count_distinct.
  assert (x ∈ remove_dups (omap id l)) as Hin
    by (by rewrite elem_of_remove_dups, elem_of_omap_id).
  destruct (remove_dups (omap id l)); [by apply elem_of_nil in Hin|simpl; lia].
Qed.

(** *** The ordering of the result *)

Global Instance order_le_total : Total order_le.
Proof.
  intros r1 r2. unfold order_le.
  destruct (Z.lt_trichotomy (week_start r1) (week_start r2)) as [?|[?|?]];
    [tauto| |tauto].
  destruct (total collate_le (agent r1) (agent r2)); [left|right]; right; done.
Qed.

Global Instance order_le_trans : Transitive order_le.
Proof.
  intros r1 r2 r3 [?|[? ?]] [?|[? ?]]; unfold order_le; [left; lia..|].
  right. split; [lia|]. by etrans.
Qed.

Lemma row_key_final_select js k : row_key (final_select (aggregate js k)) = k.
Proof. by destruct k. Qed.

Section load.
Context (viewings : list viewing) (prospects : list prospect).
Context (rows : list metric_row).
Context (Hload : load_weekly_data viewings prospects = Ok rows).

Lemma load_inv :
  ∃ cvs, cleaned_viewings viewings = Ok cvs
    ∧ rows = merge_sort order_le
               (final_select <$> weekly (left_join cvs prospects)).
Proof.
  unfold load_weekly_data in Hload.
  destruct (cleaned_viewings viewings) as [cvs|]; [|done].
  exists cvs. simpl in Hload. by simplify_eq.
Qed.

Lemma load_Permutation cvs :
  cleaned_viewings viewings = Ok cvs →
  rows ≡ₚ final_select <$> weekly (left_join cvs prospects).
Proof.
  intros Hc. destruct load_inv as (cvs' & Hc' & ->).
  rewrite Hc in Hc'. simplify_eq. apply merge_sort_Permutation.
Qed.

Lemma load_keys_Permutation cvs :
  cleaned_viewings viewings = Ok cvs →
  row_key <$> rows ≡ₚ remove_dups (key_of <$> left_join cvs prospects).
Proof.
  intros Hc. rewrite (load_Permutation cvs Hc). unfold weekly.
  rewrite <- !list_fmap_compose.
  rewrite <- (list_fmap_id (remove_dups _)) at 2.
  erewrite list_fmap_ext; [done|]. intros i k _. apply row_key_final_select.
Qed.

Lemma elem_of_load r :
  r ∈ rows →
  ∃ cvs, cleaned_viewings viewings = Ok cvs
    ∧ row_key r ∈ key_of <$> left_join cvs prospects
    ∧ r = final_select (aggregate (left_join cvs prospects) (row_key r)).
Proof.
  intros Hr. destruct load_inv as (cvs & Hc & _). exists cvs. split; [done|].
  rewrite (load_Permutation cvs Hc) in Hr. unfold weekly in Hr.
  apply list_elem_of_fmap in Hr as (w & -> & Hw).
  apply list_elem_of_fmap in Hw as (k & -> & Hk).
  rewrite elem_of_remove_dups in Hk. by rewrite !row_key_final_select.
Qed.

Lemma load_Sorted : StronglySorted order_le rows.
Proof.
  destruct load_inv as (cvs & _ & ->). apply StronglySorted_merge_sort; apply _.
Qed.
End load.

(** ** Rates *)

Lemma round_div_le_mono x x' y :
  0 ≤ x ≤ x' → 0 < y → round_div x y ≤ round_div x' y.
Proof.
  intros Hx Hy. rewrite !round_div_nonneg by lia.
  apply Z.div_le_mono; lia.
Qed.

Lemma round_div_mul k y : 0 ≤ k → 0 < y → round_div (k * y) y = k.
Proof. intros Hk Hy. apply round_div_unique; nia. Qed.

Lemma round_div_0_le x y : 0 ≤ x → 0 < y → 0 ≤ round_div x y.
Proof.
  intros Hx Hy. rewrite round_div_nonneg by lia. apply Z.div_pos; lia.
Qed.

Lemma select_div_scale_range a b : 0 ≤ select_div_scale a b ≤ 1000.
Proof.
  unfold select_div_scale, NUMERIC_MIN_DISPLAY_SCALE, NUMERIC_MAX_DISPLAY_SCALE.
  lia.
Qed.

Lemma rate_zero_denominator a : rate a 0 = None.
Proof. done. Qed.

(** With a positive denominator the rate is a non-negative number of
    tenths, at most 100.0 when the numerator does not exceed the
    denominator. *)
Lemma rate_range a b :
  0 ≤ a → 0 < b →
  ∃ t, rate a b = Some (Numeric t 1) ∧ 0 ≤ t ∧ (a ≤ b → t ≤ 1000).
Proof.
  intros Ha Hb. unfold rate, NULLIF.
  destruct (decide (b = 0)) as [|_]; [lia|]. simpl.
  unfold numeric_round, numeric_mul_int, numeric_div. simpl.
  pose proof (select_div_scale_range a b) as Hs.
  set (s := select_div_scale a b) in *.
  assert (0 < 10 ^ s) as HP by (apply Z.pow_pos_nonneg; lia).
  pose proof (round_div_0_le (a * 10 ^ s) b ltac:(nia) Hb) as Hq0.
  assert (a ≤ b → round_div (a * 10 ^ s) b ≤ 10 ^ s) as Hq1.
  { intros Hab. rewrite <- (round_div_mul (10 ^ s) b) at 2 by lia.
    apply round_div_le_mono; nia. }
  set (q := round_div (a * 10 ^ s) b) in *.
  destruct (Z.leb_spec s 1) as [Hle|Hgt]; eexists; (split; [done|]).
  - assert (0 < 10 ^ (1 - s)) by (apply Z.pow_pos_nonneg; lia).
    split; [nia|]. intros Hab. specialize (Hq1 Hab).
    assert (s = 0 ∨ s = 1) as [Hs0|Hs1] by lia.
    + rewrite Hs0 in *. change (10 ^ (1 - 0)) with 10. change (10 ^ 0) with 1 in Hq1. lia.
    + rewrite Hs1 in *. change (10 ^ (1 - 1)) with 1. change (10 ^ 1) with 10 in Hq1. lia.
  - assert (0 < 10 ^ (s - 1)) as HP' by (apply Z.pow_pos_nonneg; lia).
    split; [apply round_div_0_le; lia|]. intros Hab. specialize (Hq1 Hab).
    rewrite <- (round_div_mul 1000 (10 ^ (s - 1))) by lia.
    apply round_div_le_mono; [|done].
    assert (10 ^ s = 10 * 10 ^ (s - 1)) as Hpow.
    { replace s with (Z.succ (s - 1)) at 1 by lia. by rewrite Z.pow_succ_r by lia. }
    lia.
Qed.

(** ** Groups and their counts *)

Section groups.
Context (viewings : list viewing) (prospects : list prospect).
Context (cvs : list cleaned_viewing).
Context (Hclean : cleaned_viewings viewings = Ok cvs).
Implicit Types (k : group_key) (x : PersonId).

Let js := left_join cvs prospects.

Lemma elem_of_group_persons k x :
  x ∈ group_persons viewings k ↔ ∃ cv, cv ∈ cvs ∧ cv_key cv = k ∧ cv_personId cv = x.
Proof.
  unfold group_persons.
  rewrite elem_of_remove_dups, list_elem_of_omap. split.
  - intros (v & [[Ha Hd] Hv]%list_elem_of_filter & Hp).
    destruct (TO_DATE (v_Date v)) as [d|] eqn:Hdate; [|done].
    exists (CleanedViewing x (v_Agent v) d). split; [|split; [|done]].
    + apply (elem_of_cleaned_viewings viewings); [done|]. by exists v.
    + unfold cv_key. simpl in *. destruct k. simpl in *. congruence.
  - intros (cv & Hcv & <- & <-).
    apply (elem_of_cleaned_viewings viewings cvs) in Hcv as (v & Hv & Hp & Ha & Hd);
      [|done].
    exists v. split; [|done]. apply list_elem_of_filter. split; [|done].
    split; simpl; [done|]. by rewrite Hd.
Qed.

Lemma elem_of_viewed k x :
  Some x ∈ viewed_case <$> group_of k js ↔ x ∈ group_persons viewings k.
Proof.
  rewrite elem_of_group_persons, list_elem_of_fmap. split.
  - intros ([cv op] & [= ->] & [Hk [Hcv _]%elem_of_left_join]%list_elem_of_filter).
    by exists cv.
  - intros (cv & Hcv & Hk & <-).
    destruct (left_join_covers cvs prospects cv Hcv) as [op Hop].
    exists (cv, op). split; [done|]. by apply list_elem_of_filter.
Qed.

Lemma elem_of_applied k x :
  Some x ∈ applied_case <$> group_of k js ↔
  x ∈ group_persons viewings k ∧ has_applied prospects x.
Proof.
  rewrite elem_of_group_persons, list_elem_of_fmap.
  unfold has_applied. rewrite Exists_exists. split.
  - intros ([cv op] & Hcase & [Hk [Hcv Hop]%elem_of_left_join]%list_elem_of_filter).
    unfold applied_case in Hcase. simpl in *.
    destruct op as [p|]; [|done]. destruct Hop as [Hp Hpid].
    destruct (p_Applied p) as [m|] eqn:Hm; [|done]. simplify_eq.
    split; [by exists cv|]. exists p. by rewrite Hm.
  - intros [(cv & Hcv & Hk & <-) (p & Hp & Hpid & [m Hm])].
    exists (cv, Some p). split.
    + unfold applied_case. simpl. by rewrite Hm.
    + apply list_elem_of_filter. split; [done|]. by apply elem_of_left_join.
Qed.

Lemma elem_of_current k x :
  Some x ∈ current_case <$> group_of k js ↔
  x ∈ group_persons viewings k ∧ is_current prospects x.
Proof.
  rewrite elem_of_group_persons, list_elem_of_fmap.
  unfold is_current. rewrite Exists_exists. split.
  - intros ([cv op] & Hcase & [Hk [Hcv Hop]%elem_of_left_join]%list_elem_of_filter).
    unfold current_case in Hcase. simpl in *.
    destruct op as [p|]; [|done]. destruct Hop as [Hp Hpid].
    destruct (decide (p_Status p = Some "Current")) as [Hst|]; [|done].
    simplify_eq. split; [by exists cv|]. by exists p.
  - intros [(cv & Hcv & Hk & <-) (p & Hp & Hpid & Hst)].
    exists (cv, Some p). split.
    + unfold current_case. simpl. by rewrite decide_True.
    + apply list_elem_of_filter. split; [done|]. by apply elem_of_left_join.
Qed.

(** The three counts of a group are counts of distinct persons of its
    viewing events; the number of matching prospect records plays no
    part. *)
Lemma aggregate_counts k :
  let persons := group_persons viewings k in
  w_total_viewings (aggregate js k) = Z.of_nat (length persons)
  ∧ w_applications (aggregate js k)
    = Z.of_nat (length (filter (has_applied prospects) persons))
  ∧ w_tenants (aggregate js k)
    = Z.of_nat (length (filter (is_current prospects) persons)).
Proof.
  intros persons. unfold aggregate. simpl.
  assert (NoDup persons) by apply NoDup_remove_dups.
  split; [|split]; apply count_distinct_spec;
    try (apply NoDup_filter; done); try done.
  - intros x. by rewrite elem_of_viewed.
  - intros x. rewrite list_elem_of_filter, elem_of_applied. tauto.
  - intros x. rewrite list_elem_of_filter, elem_of_current. tauto.
Qed.

Lemma group_persons_nonempty k :
  k ∈ key_of <$> js → (0 < length (group_persons viewings k))%nat.
Proof.
  intros (cv & Hcv & Hk)%elem_of_join_keys.
  assert (cv_personId cv ∈ group_persons viewings k) as Hin.
  { apply elem_of_group_persons. by exists cv. }
  destruct (group_persons viewings k); [by apply elem_of_nil in Hin|simpl; lia].
Qed.
End groups.

Lemma elem_of_load_keys viewings prospects rows cvs k :
  load_weekly_data viewings prospects = Ok rows →
  cleaned_viewings viewings = Ok cvs →
  k ∈ row_key <$> rows ↔ ∃ cv, cv ∈ cvs ∧ cv_key cv = k.
Proof.
  intros Hload Hc.
  rewrite (load_keys_Permutation _ _ _ Hload cvs Hc), elem_of_remove_dups.
  apply elem_of_join_keys.
Qed.

(** What the query makes of every row it returns. *)
Lemma load_row viewings prospects rows r :
  load_weekly_data viewings prospects = Ok rows → r ∈ rows →
  let persons := group_persons viewings (row_key r) in
  (0 < length persons)%nat
  ∧ total_viewings r = Z.of_nat (length persons)
  ∧ applications r = Z.of_nat (length (filter (has_applied prospects) persons))
  ∧ tenants r = Z.of_nat (length (filter (is_current prospects) persons))
  ∧ week_end r = date_pl_interval_days (week_start r) 6
  ∧ view_to_app_rate r = rate (applications r) (total_viewings r)
  ∧ app_to_tenant_rate r = rate (tenants r) (applications r)
  ∧ total_conversion_rate r = rate (tenants r) (total_viewings r).
Proof.
  intros Hload Hr.
  destruct (elem_of_load _ _ _ Hload r Hr) as (cvs & Hc & Hk & Heq).
  remember (row_key r) as k eqn:Hkey. subst r. intros persons.
  destruct (aggregate_counts viewings prospects cvs Hc k) as (Ht & Ha & Hc').
  split; [by eapply group_persons_nonempty|].
  fold persons in Ht, Ha, Hc'. unfold final_select.
  cbn [total_viewings applications tenants week_end week_start
       view_to_app_rate app_to_tenant_rate total_conversion_rate].
  by rewrite Ht, Ha, Hc'.
Qed.

(** ** Indexing, argmin and the weeks of the table *)

(** *** Indexing *)

Lemma getitem_nonneg {A} (l : list A) (i : nat) a :
  l !! i = Some a → getitem l (Z.of_nat i) = Ok a.
Proof.
  intros Hi. pose proof (lookup_lt_Some _ _ _ Hi). unfold getitem.
  destruct (Z.ltb_spec (Z.of_nat i) 0); [lia|].
  rewrite Nat2Z.id, Hi.
  destruct (Z.leb_spec 0 (Z.of_nat i)); [|lia].
  destruct (Z.ltb_spec (Z.of_nat i) (Z.of_nat (length l))); [done|lia].
Qed.

Lemma getitem_negative {A} (l : list A) (i : Z) a :
  i < 0 → l !! Z.to_nat (Z.of_nat (length l) + i) = Some a →
  0 ≤ Z.of_nat (length l) + i → getitem l i = Ok a.
Proof.
  intros Hneg Hi Hlo. pose proof (lookup_lt_Some _ _ _ Hi). unfold getitem.
  destruct (Z.ltb_spec i 0); [|lia].
  replace (i + Z.of_nat (length l)) with (Z.of_nat (length l) + i) by lia.
  rewrite Hi.
  destruct (Z.leb_spec 0 (Z.of_nat (length l) + i)); [|lia].
  destruct (Z.ltb_spec (Z.of_nat (length l) + i) (Z.of_nat (length l))); [done|lia].
Qed.

Lemma getitem_out_of_range {A} (l : list A) (i : Z) :
  i < - Z.of_nat (length l) ∨ Z.of_nat (length l) ≤ i →
  getitem l i = Raise IndexError.
Proof.
  intros Hi. unfold getitem.
  destruct (Z.ltb_spec i 0).
  - destruct (Z.leb_spec 0 (i + Z.of_nat (length l))); [|done].
    destruct (Z.ltb_spec (i + Z.of_nat (length l)) (Z.of_nat (length l)));
      [lia|done].
  - destruct (Z.leb_spec 0 i); [|done].
    destruct (Z.ltb_spec i (Z.of_nat (length l))); [lia|done].
Qed.

Lemma getitem_in_range {A} (l : list A) (i : Z) :
  - Z.of_nat (length l) ≤ i < Z.of_nat (length l) →
  ∃ a, getitem l i = Ok a ∧ a ∈ l.
Proof.
  intros Hi. destruct (Z.ltb_spec i 0).
  - destruct (lookup_lt_is_Some_2 l (Z.to_nat (Z.of_nat (length l) + i)))
      as [a Ha]; [lia|].
    exists a. split; [apply getitem_negative; [done..|lia]|].
    by eapply list_elem_of_lookup_2.
  - destruct (lookup_lt_is_Some_2 l (Z.to_nat i)) as [a Ha]; [lia|].
    exists a. split; [|by eapply list_elem_of_lookup_2].
    rewrite <- (Z2Nat.id i) by lia. by apply getitem_nonneg.
Qed.

(** *** argmin *)

Lemma argmin_go_spec pre l best best_i :
  pre !! best_i = Some best →
  (∀ y, y ∈ pre → best ≤ y) →
  (∀ j y, (j < best_i)%nat → pre !! j = Some y → best < y) →
  ∃ x, (pre ++ l) !! argmin_go l (length pre) best best_i = Some x
    ∧ (∀ y, y ∈ pre ++ l → x ≤ y)
    ∧ (∀ j y, (j < argmin_go l (length pre) best best_i)%nat →
              (pre ++ l) !! j = Some y → x < y).
Proof.
  revert pre best best_i.
  induction l as [|z l IH]; intros pre best best_i Hbest Hmin Hfirst.
  - rewrite app_nil_r. simpl. eauto.
  - simpl. rewrite (cons_middle z pre l), app_assoc.
    replace (S (length pre)) with (length (pre ++ [z]))
      by (rewrite length_app; simpl; lia).
    pose proof (lookup_lt_Some _ _ _ Hbest) as Hlt.
    destruct (Z.ltb_spec z best) as [Hz|Hz]; apply IH.
    + rewrite lookup_app_r by lia. by rewrite Nat.sub_diag.
    + intros y [Hy|Hy%list_elem_of_singleton]%elem_of_app; [|lia].
      specialize (Hmin y Hy). lia.
    + intros j y Hj Hy. rewrite lookup_app_l in Hy by lia.
      assert (y ∈ pre) as Hin by (by eapply list_elem_of_lookup_2).
      specialize (Hmin y Hin). lia.
    + by rewrite lookup_app_l.
    + intros y [Hy|Hy%list_elem_of_singleton]%elem_of_app; [by apply Hmin|lia].
    + intros j y Hj Hy. rewrite lookup_app_l in Hy by lia. by eapply Hfirst.
Qed.

(** On a non-empty sequence [argmin] returns the first position of the
    least value. *)
Lemma argmin_spec l :
  l ≠ [] →
  ∃ k x, argmin l = Ok k ∧ l !! k = Some x
    ∧ (∀ y, y ∈ l → x ≤ y)
    ∧ (∀ j y, (j < k)%nat → l !! j = Some y → x < y).
Proof.
  destruct l as [|z l]; [done|]. intros _.
  destruct (argmin_go_spec [z] l z 0) as (x & Hx & Hmin & Hfirst).
  - done.
  - intros y Hy%list_elem_of_singleton. lia.
  - intros j y Hj. lia.
  - exists (argmin_go l 1 z 0), x. done.
Qed.

(** *** list.index *)

Lemma list_index_spec l x :
  x ∈ l → ∃ i, list_index l x = Ok i ∧ l !! i = Some x.
Proof.
  induction l as [|y l IH]; [by intros ?%elem_of_nil|].
  intros Hx. simpl. destruct (decide (y = x)) as [->|Hne]; [by exists O|].
  apply elem_of_cons in Hx as [->|Hx]; [done|].
  destruct (IH Hx) as (i & -> & Hi). by exists (S i).
Qed.

(** *** Sorted sequences *)

Lemma StronglySorted_lookup_le (l : list Z) i j x y :
  StronglySorted Z.le l → (i ≤ j)%nat → l !! i = Some x → l !! j = Some y → x ≤ y.
Proof.
  intros Hs. revert i j. induction Hs as [|z l Hs IH Hall]; intros i j Hij Hi Hj.
  - by rewrite lookup_nil in Hi.
  - destruct i as [|i], j as [|j]; simpl in *; simplify_eq; [lia| |lia|].
    + rewrite Forall_forall in Hall. apply Hall. by eapply list_elem_of_lookup_2.
    + eapply IH; [|done..]. lia.
Qed.

(** *** Timestamps *)

Lemma normalize_to_datetime d : normalize (to_datetime d) = to_datetime d.
Proof.
  unfold normalize, to_datetime. rewrite Z_mod_mult. lia.
Qed.

Lemma Timestamp_date_to_datetime d : Timestamp_date (to_datetime d) = d.
Proof. unfold Timestamp_date, to_datetime. by rewrite Z.div_mul. Qed.

Lemma snap_week_to_datetime d :
  snap_week (to_datetime d) = to_datetime (d - weekday d).
Proof.
  unfold snap_week, Timestamp_weekday, timedelta_days.
  rewrite Timestamp_date_to_datetime. unfold to_datetime. lia.
Qed.

Lemma weekday_range d : 0 ≤ weekday d ≤ 6.
Proof. unfold weekday. pose proof (Z.mod_pos_bound (d + 3) 7). lia. Qed.

Lemma weekday_trunc d : weekday (d - weekday d) = 0.
Proof.
  unfold weekday.
  replace (d - (d + 3) mod 7 + 3) with (d + 3 - (d + 3) mod 7) by lia.
  rewrite Zminus_mod_idemp_r. by rewrite Z.sub_diag.
Qed.

(** *** valid_weeks *)

Lemma elem_of_valid_weeks df w :
  w ∈ valid_weeks df ↔ ∃ r, r ∈ df ∧ to_datetime (week_start r) = w.
Proof.
  unfold valid_weeks. rewrite list_elem_of_fmap. split.
  - intros (d & -> & Hd).
    rewrite merge_sort_Permutation, elem_of_remove_dups, list_elem_of_fmap in Hd.
    destruct Hd as (r & -> & Hr). by exists r.
  - intros (r & Hr & <-). exists (week_start r). split; [done|].
    rewrite merge_sort_Permutation, elem_of_remove_dups, list_elem_of_fmap.
    by exists r.
Qed.

Lemma valid_weeks_nil df : valid_weeks df = [] ↔ df = [].
Proof.
  split; [|by intros ->].
  destruct df as [|r df]; [done|]. intros Hnil.
  assert (to_datetime (week_start r) ∈ valid_weeks (r :: df)) as Hin.
  { apply elem_of_valid_weeks. exists r. split; [left|done]. }
  rewrite Hnil in Hin. by apply elem_of_nil in Hin.
Qed.

Lemma valid_weeks_Sorted df : StronglySorted Z.le (valid_weeks df).
Proof.
  unfold valid_weeks.
  apply (StronglySorted_fmap _ Z.le Z.le).
  - intros x y Hxy. unfold to_datetime, NS_PER_DAY. lia.
  - apply StronglySorted_merge_sort; apply _.
Qed.

(** ** The aggregation loader *)

Lemma pct_1dp_nearest num den :
  0 ≤ num → 0 < den →
  2 * den * pct_1dp num den ≤ 2000 * num + den
  < 2 * den * (pct_1dp num den + 1).
Proof.
  intros Hn Hd. unfold pct_1dp.
  pose proof (Z.mul_div_le (2 * (1000 * num) + den) (2 * den)).
  pose proof (Z.mul_succ_div_gt (2 * (1000 * num) + den) (2 * den)).
  lia.
Qed.

Lemma load_row_counts viewings prospects rows r :
  load_weekly_data viewings prospects = Ok rows → r ∈ rows →
  0 < total_viewings r
  ∧ 0 ≤ applications r ≤ total_viewings r
  ∧ 0 ≤ tenants r ≤ total_viewings r.
Proof.
  intros Hload Hr.
  destruct (load_row _ _ _ _ Hload Hr) as (Hpos & -> & -> & -> & _).
  pose proof (length_filter (has_applied prospects)
                (group_persons viewings (row_key r))).
  pose proof (length_filter (is_current prospects)
                (group_persons viewings (row_key r))).
  lia.
Qed.

(** C1, as the query computes it. For every row the query returns whose
    [total_viewings] is below [10 ^ 12]: [total_viewings] is positive,
    [view_to_app_rate] and [total_conversion_rate] are their ratios times
    100 rounded to one decimal place, and [app_to_tenant_rate] is its ratio
    times 100 rounded to one decimal place when [applications] is positive
    and is NULL when [applications] is 0. Below [10 ^ 12] the significant
    digits PostgreSQL keeps in the quotient cannot move the last rounding. *)
Theorem rates_rounded_or_null viewings prospects rows r :
  load_weekly_data viewings prospects = Ok rows → r ∈ rows →
  total_viewings r < 10 ^ 12 →
  0 < total_viewings r
  ∧ view_to_app_rate r
    = Some (Numeric (pct_1dp (applications r) (total_viewings r)) 1)
  ∧ total_conversion_rate r
    = Some (Numeric (pct_1dp (tenants r) (total_viewings r)) 1)
  ∧ app_to_tenant_rate r
    = if decide (applications r = 0) then None
      else Some (Numeric (pct_1dp (tenants r) (applications r)) 1).
Proof.
  intros Hload Hr Hsmall.
  destruct (load_row_counts _ _ _ _ Hload Hr) as (Hpos & Happ & Hten).
  destruct (load_row _ _ _ _ Hload Hr) as (_ & _ & _ & _ & _ & -> & -> & ->).
  split; [done|].
  rewrite !rate_small by lia. split; [done|]. split; [done|].
  destruct (decide (applications r = 0)) as [->|Hne]; [done|].
  apply rate_small; lia.
Qed.

(** C4, as the query computes it. For every row the query returns,
    [view_to_app_rate] and [total_conversion_rate] lie in [[0, 100]];
    [app_to_tenant_rate] is NULL exactly when [applications] is 0, is
    otherwise not negative, and lies in [[0, 100]] whenever [tenants] does
    not exceed [applications]. *)
Theorem rates_in_range viewings prospects rows r :
  load_weekly_data viewings prospects = Ok rows → r ∈ rows →
  (∃ x, view_to_app_rate r = Some x ∧ numeric_in 0 100 x)
  ∧ (∃ x, total_conversion_rate r = Some x ∧ numeric_in 0 100 x)
  ∧ match app_to_tenant_rate r with
    | None => applications r = 0
    | Some x =>
        0 < applications r ∧ 0 ≤ n_digits x
        ∧ (tenants r ≤ applications r → numeric_in 0 100 x)
    end.
Proof.
  intros Hload Hr.
  destruct (load_row_counts _ _ _ _ Hload Hr) as (Hpos & Happ & Hten).
  destruct (load_row _ _ _ _ Hload Hr) as (_ & _ & _ & _ & _ & -> & -> & ->).
  split; [|split].
  - destruct (rate_range (applications r) (total_viewings r)) as (t & -> & ? & Ht);
      [lia..|].
    eexists; split; [done|]. unfold numeric_in. simpl. lia.
  - destruct (rate_range (tenants r) (total_viewings r)) as (t & -> & ? & Ht);
      [lia..|].
    eexists; split; [done|]. unfold numeric_in. simpl. lia.
  - destruct (decide (applications r = 0)) as [Hz|Hnz].
    + by rewrite Hz.
    + destruct (rate_range (tenants r) (applications r)) as (t & -> & ? & Ht);
        [lia..|].
      split; [lia|]. split; [done|]. intros Hle. unfold numeric_in. simpl. lia.
Qed.

Lemma Exists_app_copies {A} (P : A → Prop) (l copies : list A) :
  (∀ a, a ∈ copies → a ∈ l) → Exists P (l ++ copies) ↔ Exists P l.
Proof.
  intros Hsub. rewrite Exists_app. split; [|by left].
  intros [?|(a & Ha & ?)%Exists_exists]; [done|].
  apply Exists_exists. exists a. auto.
Qed.

(** C6. For every row the query returns, the three counts are numbers of
    distinct persons among the viewing events of the row's group: all of
    them for [total_viewings], those with an "applied" prospect record for
    [applications], those with a "Current" prospect record for [tenants];
    so [tenants] and [applications] are at most [total_viewings], and
    adding copies of prospect records that are already there changes none
    of the three counts of the group. *)
Theorem counts_are_distinct_person_counts viewings prospects rows r :
  load_weekly_data viewings prospects = Ok rows → r ∈ rows →
  let persons := group_persons viewings (agent r, week_start r) in
  total_viewings r = Z.of_nat (length persons)
  ∧ applications r = Z.of_nat (length (filter (has_applied prospects) persons))
  ∧ tenants r = Z.of_nat (length (filter (is_current prospects) persons))
  ∧ tenants r ≤ total_viewings r
  ∧ applications r ≤ total_viewings r
  ∧ ∀ copies rows' r',
      (∀ p, p ∈ copies → p ∈ prospects) →
      load_weekly_data viewings (prospects ++ copies) = Ok rows' →
      r' ∈ rows' → agent r' = agent r → week_start r' = week_start r →
      total_viewings r' = total_viewings r
      ∧ applications r' = applications r
      ∧ tenants r' = tenants r.
Proof.
  intros Hload Hr persons.
  destruct (load_row_counts _ _ _ _ Hload Hr) as (Hpos & Happ & Hten).
  destruct (load_row _ _ _ _ Hload Hr) as (_ & Ht & Ha & Hc & _).
  do 3 (split; [done|]). split; [lia|]. split; [lia|].
  intros copies rows' r' Hcopies Hload' Hr' Hagent Hweek.
  destruct (load_row _ _ _ _ Hload' Hr') as (_ & Ht' & Ha' & Hc' & _).
  assert (row_key r' = row_key r) as Hkey by (unfold row_key; congruence).
  rewrite Hkey in Ht', Ha', Hc'. rewrite Ht, Ha, Hc, Ht', Ha', Hc'.
  split; [done|].
  split; do 2 f_equal; apply list_filter_iff; intros x;
    unfold has_applied, is_current; by apply Exists_app_copies.
Qed.

Lemma StronglySorted_strengthen {A B} `{EqDecision B} (R R' : relation A)
    (f : A → B) l :
  (∀ x y, R x y → f x ≠ f y → R' x y) →
  StronglySorted R l → NoDup (f <$> l) → StronglySorted R' l.
Proof.
  intros Hstrict. induction 1 as [|x l _ IH Hall]; intros Hnd; [constructor|].
  rewrite fmap_cons in Hnd. apply NoDup_cons in Hnd as [Hx Hnd].
  constructor; [by apply IH|].
  rewrite Forall_forall in *. intros y Hy. apply Hstrict; [by apply Hall|].
  intros Heq. apply Hx. rewrite Heq. apply list_elem_of_fmap. by exists y.
Qed.

Lemma cleaned_key_iff viewings cvs k :
  cleaned_viewings viewings = Ok cvs →
  (∃ cv, cv ∈ cvs ∧ cv_key cv = k) ↔
  (∃ v, v ∈ viewings ∧ is_Some (v_personId v) ∧ in_group k v).
Proof.
  intros Hc. split.
  - intros (cv & Hcv & <-).
    apply (elem_of_cleaned_viewings viewings cvs) in Hcv
      as (v & Hv & Hp & Ha & Hd); [|done].
    exists v. split; [done|]. split; [by rewrite Hp|].
    split; simpl; [done|]. by rewrite Hd.
  - intros (v & Hv & [pid Hp] & Ha & Hd).
    destruct (TO_DATE (v_Date v)) as [d|] eqn:Hdate; [|done].
    exists (CleanedViewing pid (v_Agent v) d). split.
    + apply (elem_of_cleaned_viewings viewings); [done|]. by exists v.
    + unfold cv_key. destruct k. simpl in *. congruence.
Qed.

(** C9. The rows the query returns are sorted by [week_start] ascending
    and, within a week, by [agent] ascending, strictly; no two rows share
    their [(agent, week_start)], and the pairs that have a row are those of
    the viewing events with a person. *)
Theorem load_sorted_one_row_per_group viewings prospects rows :
  load_weekly_data viewings prospects = Ok rows →
  StronglySorted week_agent_lt rows
  ∧ NoDup ((λ r, (agent r, week_start r)) <$> rows)
  ∧ ∀ a w,
      (∃ r, r ∈ rows ∧ agent r = a ∧ week_start r = w) ↔
      (∃ v, v ∈ viewings ∧ is_Some (v_personId v) ∧ in_group (a, w) v).
Proof.
  intros Hload. destruct (load_inv _ _ _ Hload) as (cvs & Hc & _).
  assert (NoDup (row_key <$> rows)) as Hnd.
  { rewrite (load_keys_Permutation _ _ _ Hload cvs Hc). apply NoDup_remove_dups. }
  split; [|split; [done|]].
  - apply (StronglySorted_strengthen order_le _ row_key);
      [|by eapply load_Sorted|done].
    intros r1 r2 [?|[? ?]] Hne; [by left|right].
    do 2 (split; [done|]). intros Heq. apply Hne. unfold row_key. congruence.
  - intros a w. rewrite <- (cleaned_key_iff viewings cvs (a, w) Hc).
    rewrite <- (elem_of_load_keys viewings prospects rows cvs (a, w) Hload Hc).
    rewrite list_elem_of_fmap. unfold row_key. split.
    + intros (r & Hr & <- & <-). by exists r.
    + intros (r & [= -> ->] & Hr). by exists r.
Qed.

(** C2, as the query computes it. The load succeeds exactly when no
    viewing row with a person has a date that cannot be parsed; one such
    row makes the whole load fail with the data error of the query. A row
    without a person is filtered out before its date is read. *)
Theorem load_fails_on_unparseable_date viewings prospects :
  (is_Ok (load_weekly_data viewings prospects)
     ↔ Forall (λ v, ¬ unparseable v) viewings)
  ∧ (load_weekly_data viewings prospects = Raise DataError
     ↔ Exists unparseable viewings).
Proof.
  unfold load_weekly_data.
  destruct (decide (Exists unparseable viewings)) as [Hbad|Hgood].
  - rewrite (cleaned_viewings_Raise viewings Hbad). simpl. split.
    + split; [by intros [? ?]|]. intros Hall.
      by apply Forall_not_Exists in Hall.
    + done.
  - apply not_Exists_Forall in Hgood; [|apply _].
    destruct (cleaned_viewings_Ok viewings) as [cvs ->].
    { eapply Forall_impl; [exact Hgood|]. intros v Hv. simpl in Hv.
      unfold unparseable in Hv.
      destruct (v_personId v); [|by left].
      destruct (TO_DATE (v_Date v)); [by right|]. destruct Hv. by split. }
    simpl. split.
    + split; [done|]. intros _. by eexists.
    + split; [done|]. intros Hex. by apply Forall_not_Exists in Hgood.
Qed.

Lemma week_start_column_to_datetime r :
  week_start_column r = to_datetime (week_start r).
Proof. apply normalize_to_datetime. Qed.

(** C8. For every row the query returns, [week_end] is the midnight six
    days after [week_start]; and for every week of [valid_weeks], the
    filtered table is not empty, the window is that week and the instant six
    days later, and each filtered row carries that week as [week_start] and
    that instant as [week_end]. *)
Theorem week_window_matches_rows viewings prospects rows selected :
  load_weekly_data viewings prospects = Ok rows →
  selected ∈ valid_weeks rows →
  (∀ r, r ∈ rows → week_end r = (week_start r + 6) * USECS_PER_DAY)
  ∧ let view := week_filter rows selected in
    view_week_df view ≠ []
    ∧ view_start_of_week view = selected
    ∧ view_end_of_week view = selected + 6 * NS_PER_DAY
    ∧ ∀ r, r ∈ view_week_df view →
        r ∈ rows
        ∧ to_datetime (week_start r) = view_start_of_week view
        ∧ of_sql_timestamp (week_end r) = view_end_of_week view.
Proof.
  intros Hload Hsel. assert (∀ r, r ∈ rows →
    week_end r = (week_start r + 6) * USECS_PER_DAY) as Hend.
  { intros r Hr.
    destruct (load_row _ _ _ _ Hload Hr) as (_ & _ & _ & _ & -> & _).
    unfold date_pl_interval_days. lia. }
  split; [done|].
  apply elem_of_valid_weeks in Hsel as (r0 & Hr0 & <-).
  unfold week_filter. rewrite normalize_to_datetime.
  set (week_df := filter _ rows).
  assert (∀ r, r ∈ week_df ↔ r ∈ rows ∧ week_start r = week_start r0) as Hdf.
  { intros r. unfold week_df. rewrite list_elem_of_filter.
    rewrite week_start_column_to_datetime. unfold to_datetime, NS_PER_DAY.
    split; intros [? ?]; (split; [lia || done|lia || done]). }
  assert (r0 ∈ week_df) as Hin by (by apply Hdf).
  cbn [view_week_df view_start_of_week view_end_of_week].
  destruct week_df as [|r1 rest] eqn:Heq; [by apply elem_of_nil in Hin|].
  assert (week_start r1 = week_start r0) as Hr1 by (apply Hdf; left).
  rewrite week_start_column_to_datetime, Hr1.
  split; [done|]. split; [done|]. split; [done|].
  intros r [Hr Hw]%Hdf. split; [done|]. rewrite Hw. split; [done|].
  rewrite (Hend r Hr), Hw.
  unfold of_sql_timestamp, to_datetime, timedelta_days, USECS_PER_DAY, NS_PER_DAY.
  lia.
Qed.

(** C3, at the empty data set. The query returns no row, [valid_weeks] is
    empty, and the run of the script ends with [IndexError] at line 93,
    whatever the session holds and whatever date is picked: the empty state
    of line 125 is never reached. Line 102 alone raises [ValueError] on an
    empty [valid_weeks]. *)
Theorem empty_dataset_raises_IndexError prospects ss picked :
  load_weekly_data [] prospects = Ok []
  ∧ valid_weeks [] = []
  ∧ (request ss [] prospects picked).2 = Raise IndexError
  ∧ ∀ snap, nearest_week [] snap = Raise ValueError.
Proof.
  split; [done|]. split; [done|]. split; [|done].
  unfold request. change (load_weekly_data [] prospects) with (Ok (@nil metric_row)).
  cbv beta iota. unfold script, selected_week.
  change (valid_weeks []) with (@nil Timestamp).
  destruct ss as [i|]; [|done]. cbn [init_selection].
  by rewrite (getitem_out_of_range (@nil Timestamp) i) by (simpl; lia).
Qed.

(** ** The week resolver *)

Lemma nearest_week_spec valid snap :
  valid ≠ [] →
  ∃ k w, nearest_week valid snap = Ok w ∧ valid !! k = Some w
    ∧ (∀ w', w' ∈ valid → Z.abs (w - snap) ≤ Z.abs (w' - snap))
    ∧ (∀ j w', (j < k)%nat → valid !! j = Some w' →
               Z.abs (w - snap) < Z.abs (w' - snap)).
Proof.
  intros Hne. unfold nearest_week.
  destruct (argmin_spec ((λ w, Z.abs (w - snap)) <$> valid))
    as (k & x & -> & Hk & Hmin & Hfirst).
  { by destruct valid. }
  apply list_lookup_fmap_Some_1 in Hk as (w & -> & Hw).
  exists k, w. simpl. split; [by apply getitem_nonneg|]. split; [done|]. split.
  - intros w' Hw'. apply Hmin, list_elem_of_fmap. by exists w'.
  - intros j w' Hj Hw'. apply (Hfirst j); [done|].
    by apply (list_lookup_fmap_Some_2 (λ w, Z.abs (w - snap))).
Qed.

Lemma jump_to_date_spec valid d :
  valid ≠ [] →
  ∃ k w idx, jump_to_date valid d = Ok (w, Z.of_nat idx)
    ∧ valid !! k = Some w ∧ valid !! idx = Some w
    ∧ (∀ w', w' ∈ valid →
         Z.abs (w - snap_week (to_datetime d))
         ≤ Z.abs (w' - snap_week (to_datetime d)))
    ∧ (∀ j w', (j < k)%nat → valid !! j = Some w' →
         Z.abs (w - snap_week (to_datetime d))
         < Z.abs (w' - snap_week (to_datetime d))).
Proof.
  intros Hne. unfold jump_to_date.
  destruct (nearest_week_spec valid (snap_week (to_datetime d)) Hne)
    as (k & w & -> & Hk & Hmin & Hfirst).
  destruct (list_index_spec valid w) as (idx & Hidx & Hlook);
    [by eapply list_elem_of_lookup_2|].
  exists k, w, idx. simpl. rewrite Hidx. done.
Qed.

(** C5. For a non-empty ascending [valid_weeks] and a picked date [d], the
    snap is the Monday of the week of [d] ([d] minus its weekday offset),
    the jump returns a week of [valid_weeks] whose distance to the snap is
    least, and among the weeks at that distance it returns the earliest. *)
Theorem nearest_week_minimises valid d :
  valid ≠ [] → Sorted Z.le valid →
  let monday := d - weekday d in
  let snap := to_datetime monday in
  weekday monday = 0 ∧ d - 6 ≤ monday ≤ d
  ∧ snap_week (to_datetime d) = snap
  ∧ ∃ w idx, jump_to_date valid d = Ok (w, idx)
      ∧ w ∈ valid
      ∧ (∀ w', w' ∈ valid → Z.abs (w - snap) ≤ Z.abs (w' - snap))
      ∧ (∀ w', w' ∈ valid → Z.abs (w' - snap) = Z.abs (w - snap) → w ≤ w').
Proof.
  intros Hne Hsorted monday snap.
  split; [apply weekday_trunc|].
  split; [pose proof (weekday_range d); unfold monday; lia|].
  split; [apply snap_week_to_datetime|].
  destruct (jump_to_date_spec valid d Hne)
    as (k & w & idx & Hjump & Hk & _ & Hmin & Hfirst).
  rewrite snap_week_to_datetime in Hmin, Hfirst. fold monday snap in Hmin, Hfirst.
  exists w, (Z.of_nat idx). split; [done|].
  split; [by eapply list_elem_of_lookup_2|]. split; [done|].
  intros w' [j Hj]%list_elem_of_lookup Htie.
  apply Sorted_StronglySorted in Hsorted; [|apply _].
  destruct (decide (j < k)%nat) as [Hlt|Hge].
  - specialize (Hfirst j w' Hlt Hj). lia.
  - eapply (StronglySorted_lookup_le valid k j); [done|lia|done..].
Qed.

(** C7, as pandas indexes. With the stored index [i] and [n] weeks: for
    [0 ≤ i < n] the selected week is [valid_weeks[i]]; for [-n ≤ i < 0] it
    is [valid_weeks[n + i]], counted from the end; for every other [i] the
    run ends with [IndexError]. The stored index is left as it was in all
    three cases. *)
Theorem selected_week_by_index valid i :
  let n := Z.of_nat (length valid) in
  (0 ≤ i < n →
     ∃ w, valid !! Z.to_nat i = Some w
          ∧ selected_week valid (Some i) = (Some i, Ok w))
  ∧ (- n ≤ i < 0 →
     ∃ w, valid !! Z.to_nat (n + i) = Some w
          ∧ selected_week valid (Some i) = (Some i, Ok w))
  ∧ (i < - n ∨ n ≤ i →
     selected_week valid (Some i) = (Some i, Raise IndexError)).
Proof.
  intros n. unfold selected_week. cbn [init_selection]. split; [|split].
  - intros Hi. destruct (lookup_lt_is_Some_2 valid (Z.to_nat i)) as [w Hw]; [lia|].
    exists w. split; [done|]. f_equal.
    rewrite <- (Z2Nat.id i) by lia. by apply getitem_nonneg.
  - intros Hi.
    destruct (lookup_lt_is_Some_2 valid (Z.to_nat (n + i))) as [w Hw]; [lia|].
    exists w. split; [done|]. f_equal. apply getitem_negative; [lia|done|].
    fold n. lia.
  - intros Hi. f_equal. by apply getitem_out_of_range.
Qed.

(** C10. On a non-empty table, with a fresh session or a stored index
    within the bounds, the run of the script succeeds and the index it
    stores points, in [valid_weeks], at the week the jump returned; reading
    that index as line 93 does gives the same week, the table is filtered to
    exactly that week, and the filtered table is not empty. *)
Theorem jump_index_consistent df ss picked :
  df ≠ [] →
  (∀ i, ss = Some i →
        - Z.of_nat (length (valid_weeks df)) ≤ i
        < Z.of_nat (length (valid_weeks df))) →
  ∃ view idx manual_date,
    script ss df picked = (Some idx, Ok view)
    ∧ jump_to_date (valid_weeks df) manual_date
      = Ok (view_selected_week view, idx)
    ∧ 0 ≤ idx < Z.of_nat (length (valid_weeks df))
    ∧ valid_weeks df !! Z.to_nat idx = Some (view_selected_week view)
    ∧ selected_week (valid_weeks df) (Some idx)
      = (Some idx, Ok (view_selected_week view))
    ∧ view_week_df view
      = filter (λ r, to_datetime (week_start r) = view_selected_week view) df
    ∧ view_week_df view ≠ []
    ∧ view_no_data view = false.
Proof.
  intros Hdf Hss. unfold script.
  assert (valid_weeks df ≠ []) as Hne by (by rewrite valid_weeks_nil).
  set (valid := valid_weeks df) in *.
  assert (∃ sel, (selected_week valid ss).2 = Ok sel) as [sel Hsel].
  { unfold selected_week.
    assert (0 < Z.of_nat (length valid)) by (destruct valid; [done|simpl; lia]).
    destruct ss as [i|]; cbn [init_selection snd].
    - destruct (getitem_in_range valid i (Hss i eq_refl)) as (a & -> & _). eauto.
    - destruct (getitem_in_range valid (current_index valid)) as (a & -> & _);
        [unfold current_index; lia|eauto]. }
  destruct (selected_week valid ss) as [ss1 o]. simpl in Hsel. subst o.
  set (manual_date := default (Timestamp_date sel) picked).
  destruct (jump_to_date_spec valid manual_date Hne)
    as (k & w & idx & Hjump & Hk & Hidx & _).
  rewrite Hjump.
  pose proof (lookup_lt_Some _ _ _ Hidx) as Hlt.
  assert (w ∈ valid) as Hw by (by eapply list_elem_of_lookup_2).
  apply elem_of_valid_weeks in Hw as (r0 & Hr0 & Hw).
  assert (normalize w = w) as Hnorm by (rewrite <- Hw; apply normalize_to_datetime).
  exists (week_filter df w), (Z.of_nat idx), manual_date.
  unfold week_filter. cbn [view_selected_week view_week_df view_no_data].
  rewrite Hnorm.
  split; [done|]. split; [done|]. split; [lia|].
  rewrite Nat2Z.id. split; [done|]. split.
  { unfold selected_week. cbn [init_selection]. f_equal. by apply getitem_nonneg. }
  assert (filter (λ r, week_start_column r = w) df
          = filter (λ r, to_datetime (week_start r) = w) df) as ->.
  { apply list_filter_iff. intros r. by rewrite week_start_column_to_datetime. }
  assert (filter (λ r, to_datetime (week_start r) = w) df ≠ []) as Hrows.
  { intros Hnil. by apply (filter_nil_not_elem_of _ _ r0 Hnil). }
  split; [done|]. split; [done|]. by apply bool_decide_eq_false.
Qed.

End properties.

(** ** Further properties of the query and of the week selection *)

Section further_properties.
Context `{!DateParser, !Collation}.

Lemma date_trunc_week_range d :
  date_trunc_week d ≤ d ≤ date_trunc_week d + 6.
Proof. unfold date_trunc_week. pose proof (weekday_range d). lia. Qed.

Lemma date_trunc_week_unique m d :
  weekday m = 0 → m ≤ d ≤ m + 6 → date_trunc_week d = m.
Proof.
  unfold date_trunc_week, weekday. intros Hm Hd.
  pose proof (Z.div_mod (m + 3) 7 ltac:(lia)) as Hdiv. rewrite Hm in Hdiv.
  assert ((d + 3) mod 7 = d - m) as ->; [|lia].
  symmetry. apply (Z.mod_unique_pos _ _ ((m + 3) / 7)); lia.
Qed.

Lemma cleaned_viewings_parses viewings cvs v :
  cleaned_viewings viewings = Ok cvs → v ∈ viewings →
  is_Some (v_personId v) → is_Some (TO_DATE (v_Date v)).
Proof.
  intros Hc Hv Hp. destruct (TO_DATE (v_Date v)) eqn:Hd; [by eexists|].
  rewrite cleaned_viewings_Raise in Hc; [done|].
  apply Exists_exists. by exists v.
Qed.

Lemma cleaned_viewings_filter_person viewings :
  cleaned_viewings (filter (λ v, is_Some (v_personId v)) viewings)
  = cleaned_viewings viewings.
Proof.
  induction viewings as [|v vs IH]; [done|].
  rewrite filter_cons. destruct (decide (is_Some (v_personId v))) as [[pid Hp]|Hn].
  - simpl. rewrite Hp. by rewrite IH.
  - simpl. destruct (v_personId v) as [pid|]; [|done].
    destruct Hn. by eexists.
Qed.

Lemma load_week_start_monday viewings prospects rows r :
  load_weekly_data viewings prospects = Ok rows → r ∈ rows →
  weekday (week_start r) = 0.
Proof.
  intros Hload Hr. destruct (load_inv _ _ _ Hload) as (cvs & Hc & _).
  assert (row_key r ∈ row_key <$> rows) as Hk
    by (apply list_elem_of_fmap; by exists r).
  apply (elem_of_load_keys _ _ _ cvs _ Hload Hc) in Hk as (cv & _ & Hk).
  unfold cv_key, row_key in Hk. injection Hk as _ <-.
  apply weekday_trunc.
Qed.

(** X1. Every row of the result starts its week on a Monday, and every
    viewing with a person falls, for its agent, into a row whose seven days
    hold its date; no other week of the result holds that date. *)
Theorem weeks_are_monday_buckets viewings prospects rows :
  load_weekly_data viewings prospects = Ok rows →
  (∀ r, r ∈ rows → weekday (week_start r) = 0)
  ∧ ∀ v, v ∈ viewings → is_Some (v_personId v) →
      ∃ d r, TO_DATE (v_Date v) = Some d
        ∧ r ∈ rows ∧ agent r = v_Agent v
        ∧ week_start r ≤ d ≤ week_start r + 6
        ∧ ∀ r', r' ∈ rows → week_start r' ≤ d ≤ week_start r' + 6 →
                week_start r' = week_start r.
Proof.
  intros Hload. destruct (load_inv _ _ _ Hload) as (cvs & Hc & _).
  split; [intros r; by eapply load_week_start_monday|]. intros v Hv Hp.
  destruct (cleaned_viewings_parses _ _ _ Hc Hv Hp) as [d Hd].
  assert ((v_Agent v, date_trunc_week d) ∈ row_key <$> rows) as Hk.
  { apply (elem_of_load_keys _ _ _ cvs _ Hload Hc).
    apply (cleaned_key_iff viewings cvs _ Hc). exists v.
    split; [done|]. split; [done|]. split; simpl; [done|]. by rewrite Hd. }
  apply list_elem_of_fmap in Hk as (r & Hk & Hr).
  unfold row_key in Hk. injection Hk as Ha Hw.
  exists d, r. split; [done|]. split; [done|]. split; [done|].
  rewrite <- Hw. split; [apply date_trunc_week_range|].
  intros r' Hr' Hd'. symmetry. apply date_trunc_week_unique; [|done].
  by eapply load_week_start_monday.
Qed.

(** X2. Viewing rows without a person change nothing: the query on the
    table without them gives the same outcome, whatever their dates are. *)
Theorem rows_without_person_are_ignored viewings prospects :
  load_weekly_data (filter (λ v, is_Some (v_personId v)) viewings) prospects
  = load_weekly_data viewings prospects.
Proof.
  unfold load_weekly_data. by rewrite cleaned_viewings_filter_person.
Qed.

Lemma NoDup_fmap_elem_inj {A B} (f : A → B) (l : list A) x y :
  NoDup (f <$> l) → x ∈ l → y ∈ l → f x = f y → x = y.
Proof.
  induction l as [|a l IH]; [by intros _ ?%elem_of_nil|].
  rewrite fmap_cons, NoDup_cons. intros [Ha Hnd] Hx Hy Hf.
  apply elem_of_cons in Hx as [->|Hx], Hy as [->|Hy]; [done| | |by apply IH].
  - destruct Ha. rewrite Hf. apply list_elem_of_fmap. by exists y.
  - destruct Ha. rewrite <- Hf. apply list_elem_of_fmap. by exists x.
Qed.

Lemma Exists_ext_elem {A} (P : A → Prop) (l k : list A) :
  (∀ a, a ∈ l ↔ a ∈ k) → Exists P l ↔ Exists P k.
Proof.
  intros Hlk. rewrite !Exists_exists.
  split; intros (a & Ha & HP); exists a; (split; [by apply Hlk|done]).
Qed.

Lemma group_persons_ext viewings viewings' k :
  (∀ v, v ∈ viewings ↔ v ∈ viewings') →
  group_persons viewings k ≡ₚ group_persons viewings' k.
Proof.
  intros Hvs. unfold group_persons.
  apply NoDup_Permutation; [apply NoDup_remove_dups..|].
  intros x. rewrite !elem_of_remove_dups, !list_elem_of_omap.
  split; intros (v & [Hk Hv]%list_elem_of_filter & Hp); exists v;
    (split; [apply list_elem_of_filter; split; [done|by apply Hvs]|done]).
Qed.

Lemma load_complete viewings prospects rows cvs k :
  load_weekly_data viewings prospects = Ok rows →
  cleaned_viewings viewings = Ok cvs →
  k ∈ key_of <$> left_join cvs prospects →
  final_select (aggregate (left_join cvs prospects) k) ∈ rows.
Proof.
  intros Hload Hc Hk. rewrite (load_Permutation _ _ _ Hload cvs Hc).
  unfold weekly. apply list_elem_of_fmap. eexists. split; [done|].
  apply list_elem_of_fmap. exists k. split; [done|].
  by apply elem_of_remove_dups.
Qed.

Lemma load_NoDup viewings prospects rows :
  load_weekly_data viewings prospects = Ok rows → NoDup (row_key <$> rows).
Proof.
  intros Hload. destruct (load_inv _ _ _ Hload) as (cvs & Hc & _).
  rewrite (load_keys_Permutation _ _ _ Hload cvs Hc). apply NoDup_remove_dups.
Qed.

(** A row of the result is determined by its group and the sets of rows of
    the two relations. *)
Lemma load_row_ext viewings viewings' prospects prospects' rows rows' r r' :
  (∀ v, v ∈ viewings ↔ v ∈ viewings') →
  (∀ p, p ∈ prospects ↔ p ∈ prospects') →
  load_weekly_data viewings prospects = Ok rows →
  load_weekly_data viewings' prospects' = Ok rows' →
  r ∈ rows → r' ∈ rows' → row_key r = row_key r' → r = r'.
Proof.
  intros Hvs Hps Hload Hload' Hr Hr' Hkey.
  destruct (elem_of_load _ _ _ Hload r Hr) as (cvs & Hc & _ & Heq).
  destruct (elem_of_load _ _ _ Hload' r' Hr') as (cvs' & Hc' & _ & Heq').
  rewrite Heq, Heq'. rewrite <- Hkey.
  generalize (row_key r). intros k. f_equal.
  destruct (aggregate_counts viewings prospects cvs Hc k) as (Ht & Ha & Hn).
  destruct (aggregate_counts viewings' prospects' cvs' Hc' k) as (Ht' & Ha' & Hn').
  pose proof (group_persons_ext viewings viewings' k Hvs) as Hperm.
  assert (∀ x, has_applied prospects x ↔ has_applied prospects' x) as Happ
    by (intros x; by apply Exists_ext_elem).
  assert (∀ x, is_current prospects x ↔ is_current prospects' x) as Hcur
    by (intros x; by apply Exists_ext_elem).
  rewrite (list_filter_iff _ _ _ Happ), Hperm in Ha.
  rewrite (list_filter_iff _ _ _ Hcur), Hperm in Hn.
  rewrite Hperm in Ht.
  unfold aggregate in *. simpl in *. congruence.
Qed.

(** X3. The outcome of the query depends only on which rows the two
    relations hold, not on their order nor on how often a row is repeated. *)
Theorem load_depends_on_row_sets viewings viewings' prospects prospects' :
  (∀ v, v ∈ viewings ↔ v ∈ viewings') →
  (∀ p, p ∈ prospects ↔ p ∈ prospects') →
  load_weekly_data viewings prospects = load_weekly_data viewings' prospects'.
Proof.
  intros Hvs Hps.
  destruct (decide (Exists unparseable viewings)) as [Hbad|Hgood].
  { unfold load_weekly_data.
    rewrite (cleaned_viewings_Raise viewings Hbad).
    by rewrite (cleaned_viewings_Raise viewings')
      by (by apply (Exists_ext_elem _ viewings)). }
  assert (∀ vs, ¬ Exists unparseable vs →
    ∃ rows, load_weekly_data vs prospects = Ok rows) as Hok.
  { intros vs Hno. apply not_Exists_Forall in Hno; [|apply _].
    destruct (cleaned_viewings_Ok vs) as [cvs Hc].
    - eapply Forall_impl; [exact Hno|]. intros v Hv. simpl in Hv.
      unfold unparseable in Hv. destruct (v_personId v); [|by left].
      destruct (TO_DATE (v_Date v)); [by right|]. destruct Hv. by split.
    - unfold load_weekly_data. rewrite Hc. by eexists. }
  destruct (Hok viewings Hgood) as [rows Hload].
  assert (∃ rows', load_weekly_data viewings' prospects' = Ok rows')
    as [rows' Hload'].
  { destruct (Hok viewings') as [rows0 Hrows0].
    - by rewrite <- (Exists_ext_elem _ viewings).
    - unfold load_weekly_data in *.
      destruct (cleaned_viewings viewings'); [by eexists|done]. }
  rewrite Hload, Hload'. f_equal.
  destruct (load_inv _ _ _ Hload) as (cvs & Hc & _).
  destruct (load_inv _ _ _ Hload') as (cvs' & Hc' & _).
  pose proof (load_NoDup _ _ _ Hload) as Hnd.
  pose proof (load_NoDup _ _ _ Hload') as Hnd'.
  assert (∀ k, k ∈ row_key <$> rows ↔ k ∈ row_key <$> rows') as Hkeys.
  { intros k. rewrite (elem_of_load_keys _ _ _ cvs k Hload Hc).
    rewrite (elem_of_load_keys _ _ _ cvs' k Hload' Hc').
    rewrite (cleaned_key_iff _ _ k Hc), (cleaned_key_iff _ _ k Hc').
    split; intros (v & Hv & ?); exists v; (split; [by apply Hvs|done]). }
  assert (∀ r, r ∈ rows ↔ r ∈ rows') as Helem.
  { intros r. split; intros Hr.
    - assert (row_key r ∈ row_key <$> rows') as (r' & Hk & Hr')%list_elem_of_fmap
        by (apply Hkeys, list_elem_of_fmap; by exists r).
      by rewrite (load_row_ext _ _ _ _ _ _ r r' Hvs Hps Hload Hload' Hr Hr' Hk).
    - assert (row_key r ∈ row_key <$> rows) as (r' & Hk & Hr')%list_elem_of_fmap
        by (apply Hkeys, list_elem_of_fmap; by exists r).
      by rewrite <- (load_row_ext _ _ _ _ _ _ r' r Hvs Hps Hload Hload' Hr' Hr
                       (eq_sym Hk)). }
  apply (StronglySorted_unique_strong order_le).
  - intros r1 r2 Hr1 Hr2 H12 H21. apply Helem in Hr2.
    apply (NoDup_fmap_elem_inj row_key rows); [done..|].
    unfold order_le, row_key in *.
    destruct H12 as [?|[Hw Hle]]; destruct H21 as [?|[Hw' Hge]]; try lia.
    rewrite Hw. f_equal. by apply (anti_symm collate_le).
  - by eapply load_Sorted.
  - by eapply load_Sorted.
  - apply NoDup_Permutation; [by eapply NoDup_fmap_1..|done].
Qed.

Lemma filter_length_zero {A} (P : A → Prop) `{∀ x, Decision (P x)} (l : list A) :
  length (filter P l) = 0%nat ↔ ∀ x, x ∈ l → ¬ P x.
Proof.
  split.
  - intros Hnil%nil_length_inv x Hx HP.
    by apply (filter_nil_not_elem_of _ _ x Hnil).
  - intros Hno. induction l as [|a l IH]; [done|].
    rewrite filter_cons_False by (apply Hno; left).
    apply IH. intros x Hx. apply Hno. by right.
Qed.

Lemma filter_length_mono {A} (P Q : A → Prop)
    `{∀ x, Decision (P x), ∀ x, Decision (Q x)} (l : list A) :
  (∀ x, x ∈ l → P x → Q x) →
  (length (filter P l) ≤ length (filter Q l))%nat.
Proof.
  induction l as [|a l IH]; intros HPQ; [done|].
  assert (length (filter P l) ≤ length (filter Q l))%nat as Hrec
    by (apply IH; intros x Hx; apply HPQ; by right).
  rewrite !filter_cons.
  destruct (decide (P a)) as [HP|HP], (decide (Q a)) as [HQ|HQ]; simpl; try lia.
  destruct HQ. apply HPQ; [left|done].
Qed.

Lemma rate_zero_numerator den :
  den ≠ 0 → rate 0 den = Some (Numeric 0 1).
Proof.
  intros Hden. unfold rate, NULLIF. rewrite decide_False by done. simpl.
  unfold numeric_round, numeric_mul_int, numeric_div. simpl.
  by destruct (select_div_scale 0 den <=? 1).
Qed.

(** Each chosen key selects at most one of the classes of a list: the
    classes of different keys do not overlap. *)
Lemma sum_of_classes_le {A K} (P : K → A → Prop) (Q : A → Prop)
    `{∀ k a, Decision (P k a), ∀ a, Decision (Q a)} (ks : list K) (l : list A) :
  NoDup ks →
  (∀ k a, P k a → Q a) →
  (∀ k k' a, P k a → P k' a → k = k') →
  (sum_list_with (λ k, length (filter (P k) l)) ks ≤ length (filter Q l))%nat.
Proof.
  intros Hnd HPQ Hfun. induction l as [|a l IH].
  - induction ks as [|k ks IHk]; [done|]. simpl.
    apply NoDup_cons in Hnd as [_ Hnd]. specialize (IHk Hnd). simpl in IHk. lia.
  - assert (sum_list_with (λ k, length (filter (P k) (a :: l))) ks
            ≤ sum_list_with (λ k, length (filter (P k) l)) ks
              + (if decide (Q a) then 1 else 0))%nat as Hstep.
    { clear IH. induction ks as [|k ks IHk]; [simpl; lia|].
      apply NoDup_cons in Hnd as [Hk Hnd]. specialize (IHk Hnd).
      simpl. rewrite filter_cons.
      destruct (decide (P k a)) as [HP|HP]; [|simpl; lia].
      assert (sum_list_with (λ k, length (filter (P k) (a :: l))) ks
              = sum_list_with (λ k, length (filter (P k) l)) ks) as ->.
      { clear IHk. induction ks as [|k' ks IHk']; [done|].
        apply not_elem_of_cons in Hk as [Hne Hk].
        apply NoDup_cons in Hnd as [_ Hnd].
        simpl. rewrite IHk' by done.
        rewrite filter_cons_False; [done|].
        intros HP'. by destruct Hne; apply (Hfun k k' a). }
      rewrite decide_True by (by eapply HPQ). simpl. lia. }
    rewrite (filter_cons Q). destruct (decide (Q a)); simpl in *; lia.
Qed.

Lemma length_remove_dups_le {A} `{EqDecision A} (l : list A) :
  (length (remove_dups l) ≤ length l)%nat.
Proof.
  apply submseteq_length, NoDup_submseteq; [apply NoDup_remove_dups|].
  intros x. by rewrite elem_of_remove_dups.
Qed.

Lemma foldr_add_Permutation (l k : list Z) :
  l ≡ₚ k → foldr Z.add 0 l = foldr Z.add 0 k.
Proof. induction 1; simpl; lia. Qed.

Lemma group_events_length k viewings :
  (length (omap v_personId (filter (in_group k) viewings))
   ≤ length (filter (λ v, is_Some (v_personId v) ∧ in_group k v) viewings))%nat.
Proof.
  induction viewings as [|v vs IH]; [done|].
  rewrite !filter_cons.
  destruct (decide (in_group k v)) as [Hg|Hg];
    destruct (decide (is_Some (v_personId v) ∧ in_group k v)) as [Hpg|Hpg];
    simpl; try tauto.
  - destruct Hpg as [[pid Hp] _]. rewrite Hp. simpl. apply le_n_S, IH.
  - destruct (v_personId v) as [pid|] eqn:Hp; [|done].
    destruct Hpg. split; [by eexists|done].
Qed.

(** X4. In a row, [applications] is 0 exactly when no person of the group
    has an "applied" prospect record, and [tenants] is 0 exactly when none
    has a "Current" one; with no application [view_to_app_rate] is 0.0 and
    [app_to_tenant_rate] is NULL, with no tenant [total_conversion_rate] is
    0.0. *)
Theorem no_conversion_gives_zero_or_null viewings prospects rows r :
  load_weekly_data viewings prospects = Ok rows → r ∈ rows →
  let persons := group_persons viewings (agent r, week_start r) in
  (applications r = 0 ↔ ∀ x, x ∈ persons → ¬ has_applied prospects x)
  ∧ (tenants r = 0 ↔ ∀ x, x ∈ persons → ¬ is_current prospects x)
  ∧ (applications r = 0 →
       view_to_app_rate r = Some (Numeric 0 1) ∧ app_to_tenant_rate r = None)
  ∧ (tenants r = 0 → total_conversion_rate r = Some (Numeric 0 1)).
Proof.
  intros Hload Hr persons.
  destruct (load_row _ _ _ _ Hload Hr)
    as (Hpos & Ht & Ha & Hn & _ & Hva & Hat & Htc).
  change (group_persons viewings (row_key r)) with persons in *.
  split; [|split; [|split]].
  - rewrite Ha, <- (filter_length_zero (has_applied prospects) persons). lia.
  - rewrite Hn, <- (filter_length_zero (is_current prospects) persons). lia.
  - intros Hz. rewrite Hva, Hat, Hz. split; [|done].
    apply rate_zero_numerator. lia.
  - intros Hz. rewrite Htc, Hz. apply rate_zero_numerator. lia.
Qed.

(** X5. When every prospect record with status "Current" carries an
    "applied" marker, [tenants] never exceeds [applications], and
    [app_to_tenant_rate] is NULL (nobody applied) or lies in [[0, 100]]. *)
Theorem tenants_within_applicants viewings prospects rows r :
  (∀ p, p ∈ prospects → p_Status p = Some "Current" → is_Some (p_Applied p)) →
  load_weekly_data viewings prospects = Ok rows → r ∈ rows →
  tenants r ≤ applications r
  ∧ match app_to_tenant_rate r with
    | None => applications r = 0 ∧ tenants r = 0
    | Some x => numeric_in 0 100 x
    end.
Proof.
  intros Hdata Hload Hr.
  destruct (load_row _ _ _ _ Hload Hr) as (_ & _ & Ha & Hn & _ & _ & Hat & _).
  assert (tenants r ≤ applications r) as Hle.
  { rewrite Ha, Hn. apply inj_le, filter_length_mono.
    intros x _. unfold is_current, has_applied. rewrite !Exists_exists.
    intros (p & Hp & Hpid & Hst). exists p. auto. }
  split; [done|]. rewrite Hat.
  assert (0 ≤ tenants r) by (rewrite Hn; lia).
  destruct (decide (applications r = 0)) as [Hz|Hnz].
  - rewrite Hz. simpl. split; [done|lia].
  - destruct (rate_range (tenants r) (applications r)) as (t & -> & ? & Ht);
      [lia..|].
    unfold numeric_in. simpl. lia.
Qed.

(** X6. The result never has more rows than there are viewings with a
    person, and the [total_viewings] of all rows together never exceed
    that number: a viewing event is counted at most once. *)
Theorem viewings_counted_at_most_once viewings prospects rows :
  load_weekly_data viewings prospects = Ok rows →
  (length rows ≤ length (filter (λ v, is_Some (v_personId v)) viewings))%nat
  ∧ foldr Z.add 0 (total_viewings <$> rows)
    ≤ Z.of_nat (length (filter (λ v, is_Some (v_personId v)) viewings)).
Proof.
  intros Hload. destruct (load_inv _ _ _ Hload) as (cvs & Hc & _).
  set (keys := remove_dups (key_of <$> left_join cvs prospects)).
  assert (NoDup keys) as Hnd by apply NoDup_remove_dups.
  assert (∀ k, k ∈ keys → ∃ v, v ∈ viewings ∧ is_Some (v_personId v) ∧ in_group k v)
    as Hkeys.
  { intros k Hk. apply (cleaned_key_iff viewings cvs k Hc).
    apply elem_of_join_keys with prospects. by apply elem_of_remove_dups. }
  set (P := λ k v, is_Some (v_personId v) ∧ in_group k v).
  assert (sum_list_with (λ k, length (filter (P k) viewings)) keys
          ≤ length (filter (λ v, is_Some (v_personId v)) viewings))%nat as Hsum.
  { apply sum_of_classes_le; [done|by intros k v [? ?]|].
    intros [a w] [a' w'] v [_ [Ha Hw]] [_ [Ha' Hw']]. simpl in *. congruence. }
  assert (∀ k, k ∈ keys → (1 ≤ length (filter (P k) viewings))%nat) as Hone.
  { intros k (v & Hv & Hp & Hg)%Hkeys.
    assert (v ∈ filter (P k) viewings) as Hin by (by apply list_elem_of_filter).
    destruct (filter (P k) viewings); [by apply elem_of_nil in Hin|simpl; lia]. }
  assert (∀ k, (length (group_persons viewings k)
                ≤ length (filter (P k) viewings))%nat) as Hgroup.
  { intros k. unfold group_persons.
    etrans; [apply length_remove_dups_le|]. apply group_events_length. }
  split.
  - rewrite (load_Permutation _ _ _ Hload cvs Hc). unfold weekly. fold keys.
    rewrite !length_fmap. etrans; [|exact Hsum].
    clear -Hone. induction keys as [|k ks IH]; [done|]. simpl.
    pose proof (Hone k ltac:(left)).
    specialize (IH (λ k' Hk', Hone k' (list_elem_of_further _ _ _ Hk'))). lia.
  - rewrite (foldr_add_Permutation _
      ((λ k, Z.of_nat (length (group_persons viewings k))) <$> keys)).
    + etrans; [|apply inj_le, Hsum].
      clear -Hgroup. induction keys as [|k ks IH]; [done|].
      rewrite fmap_cons. simpl. specialize (Hgroup k). lia.
    + rewrite (load_Permutation _ _ _ Hload cvs Hc). unfold weekly. fold keys.
      rewrite <- !list_fmap_compose. erewrite list_fmap_ext; [done|].
      intros i k _. unfold compose, final_select. cbn [total_viewings].
      by destruct (aggregate_counts viewings prospects cvs Hc k) as (-> & _).
Qed.

Lemma to_datetime_inj d1 d2 : to_datetime d1 = to_datetime d2 → d1 = d2.
Proof. unfold to_datetime, NS_PER_DAY. lia. Qed.

Lemma valid_weeks_NoDup df : NoDup (valid_weeks df).
Proof.
  unfold valid_weeks. apply NoDup_fmap_2_strong.
  - intros x y _ _. apply to_datetime_inj.
  - rewrite merge_sort_Permutation. apply NoDup_remove_dups.
Qed.

Lemma StronglySorted_le_lt (l : list Z) :
  StronglySorted Z.le l → NoDup l → StronglySorted Z.lt l.
Proof.
  induction 1 as [|x l _ IH Hall]; intros Hnd; [constructor|].
  apply NoDup_cons in Hnd as [Hx Hnd]. constructor; [by apply IH|].
  rewrite Forall_forall in *. intros y Hy. specialize (Hall y Hy).
  assert (x ≠ y) by (by intros ->). lia.
Qed.

Lemma list_index_NoDup valid (i : nat) w :
  NoDup valid → valid !! i = Some w → list_index valid w = Ok i.
Proof.
  intros Hnd Hi.
  destruct (list_index_spec valid w) as (j & Hj & Hlook);
    [by eapply list_elem_of_lookup_2|].
  by rewrite (NoDup_lookup valid i j w Hnd Hi Hlook).
Qed.

Lemma nearest_week_exact valid snap :
  snap ∈ valid → nearest_week valid snap = Ok snap.
Proof.
  intros Hin. destruct (nearest_week_spec valid snap) as (k & w & -> & _ & Hmin & _).
  { intros ->. by apply elem_of_nil in Hin. }
  specialize (Hmin snap Hin). f_equal. lia.
Qed.

Lemma nearest_week_Ok_elem valid snap w :
  nearest_week valid snap = Ok w → w ∈ valid.
Proof.
  destruct valid as [|w0 valid']; [done|]. intros Hn.
  destruct (nearest_week_spec (w0 :: valid') snap) as (k & w' & Hn' & Hk & _);
    [done|].
  rewrite Hn in Hn'. simplify_eq. by eapply list_elem_of_lookup_2.
Qed.

Lemma list_index_Ok_lookup valid w i :
  list_index valid w = Ok i → valid !! i = Some w.
Proof.
  revert i. induction valid as [|y l IH]; intros i; [done|]. simpl.
  destruct (decide (y = w)) as [->|Hne]; [by intros [= <-]|].
  destruct (list_index l w) as [j|] eqn:Hj; [|done].
  intros [= <-]. by apply IH.
Qed.

Lemma jump_to_date_inv valid d w idx :
  jump_to_date valid d = Ok (w, idx) →
  nearest_week valid (snap_week (to_datetime d)) = Ok w
  ∧ ∃ i, idx = Z.of_nat i ∧ list_index valid w = Ok i ∧ valid !! i = Some w.
Proof.
  unfold jump_to_date.
  destruct (nearest_week valid (snap_week (to_datetime d))) as [w'|] eqn:Hn;
    [|done].
  simpl. destruct (list_index valid w') as [i|] eqn:Hi; [|done].
  simpl. intros [= <- <-]. split; [done|]. exists i.
  split; [done|]. split; [done|]. by apply list_index_Ok_lookup.
Qed.

(** A run of the script that succeeds went through the jump. *)
Lemma script_Ok_inv ss df picked ss' view :
  script ss df picked = (ss', Ok view) →
  ∃ manual_date nearest (i : nat),
    jump_to_date (valid_weeks df) manual_date = Ok (nearest, Z.of_nat i)
    ∧ ss' = Some (Z.of_nat i)
    ∧ view = week_filter df nearest
    ∧ valid_weeks df !! i = Some nearest
    ∧ list_index (valid_weeks df) nearest = Ok i.
Proof.
  unfold script.
  destruct (selected_week (valid_weeks df) ss) as [ss1 [sel|e]]; [|done].
  set (manual_date := default (Timestamp_date sel) picked).
  destruct (jump_to_date (valid_weeks df) manual_date) as [[nearest idx]|e] eqn:Hj;
    [|done].
  intros [= <- <-].
  destruct (jump_to_date_inv _ _ _ _ Hj) as (_ & i & -> & Hi & Hlook).
  by exists manual_date, nearest, i.
Qed.

Lemma week_filter_of_valid df w :
  w ∈ valid_weeks df →
  normalize w = w
  ∧ view_week_df (week_filter df w)
    = filter (λ r, to_datetime (week_start r) = w) df
  ∧ view_week_df (week_filter df w) ≠ [].
Proof.
  intros (r0 & Hr0 & Hw)%elem_of_valid_weeks.
  assert (normalize w = w) as Hnorm by (rewrite <- Hw; apply normalize_to_datetime).
  split; [done|]. unfold week_filter. cbn [view_week_df]. rewrite Hnorm.
  assert (filter (λ r, week_start_column r = w) df
          = filter (λ r, to_datetime (week_start r) = w) df) as ->.
  { apply list_filter_iff. intros r. by rewrite week_start_column_to_datetime. }
  split; [done|]. intros Hnil. by apply (filter_nil_not_elem_of _ _ r0 Hnil).
Qed.

(** X7. [valid_weeks] is strictly ascending, so without repetition, and
    holds exactly the weeks of the table. *)
Theorem valid_weeks_ascending_distinct df :
  StronglySorted Z.lt (valid_weeks df)
  ∧ ∀ w, w ∈ valid_weeks df ↔ ∃ r, r ∈ df ∧ to_datetime (week_start r) = w.
Proof.
  split; [|apply elem_of_valid_weeks].
  apply StronglySorted_le_lt; [apply valid_weeks_Sorted|apply valid_weeks_NoDup].
Qed.

(** X8. In a fresh session on a non-empty table, line 93 reads the most
    recent week of the table and the stored index is the last position. *)
Theorem fresh_session_selects_latest_week df :
  df ≠ [] →
  ∃ w, selected_week (valid_weeks df) None
       = (Some (Z.of_nat (length (valid_weeks df)) - 1), Ok w)
    ∧ (∃ r, r ∈ df ∧ to_datetime (week_start r) = w)
    ∧ ∀ r, r ∈ df → to_datetime (week_start r) ≤ w.
Proof.
  intros Hdf. assert (valid_weeks df ≠ []) as Hne by (by rewrite valid_weeks_nil).
  set (valid := valid_weeks df) in *.
  assert (0 < length valid)%nat by (destruct valid; [done|simpl; lia]).
  destruct (lookup_lt_is_Some_2 valid (length valid - 1)) as [w Hw]; [lia|].
  exists w. unfold selected_week. cbn [init_selection]. unfold current_index.
  replace (Z.of_nat (length valid) - 1) with (Z.of_nat (length valid - 1)) by lia.
  rewrite (getitem_nonneg valid _ w Hw). split; [done|].
  split; [by apply elem_of_valid_weeks, (list_elem_of_lookup_2 _ (length valid - 1))|].
  intros r Hr.
  assert (to_datetime (week_start r) ∈ valid) as [j Hj]%list_elem_of_lookup
    by (apply elem_of_valid_weeks; by exists r).
  pose proof (lookup_lt_Some _ _ _ Hj).
  eapply (StronglySorted_lookup_le valid j (length valid - 1));
    [apply valid_weeks_Sorted|lia|done..].
Qed.

(** X10. On ascending weeks, a picked date not after the first week jumps
    to the first week, and a picked date whose Monday is not before the last
    week jumps to the last week. *)
Theorem jump_clamps_to_the_ends valid d :
  Sorted Z.le valid →
  (∀ first, head valid = Some first → to_datetime d ≤ first →
     ∃ idx, jump_to_date valid d = Ok (first, idx))
  ∧ (∀ lst, last valid = Some lst → lst ≤ snap_week (to_datetime d) →
     ∃ idx, jump_to_date valid d = Ok (lst, idx)).
Proof.
  intros Hsorted%Sorted_StronglySorted; [|apply _].
  set (snap := snap_week (to_datetime d)).
  assert (snap ≤ to_datetime d) as Hsnap.
  { unfold snap. rewrite snap_week_to_datetime. unfold to_datetime, NS_PER_DAY.
    pose proof (weekday_range d). lia. }
  assert (∀ w, nearest_week valid snap = Ok w →
            ∃ idx, jump_to_date valid d = Ok (w, idx)) as Hjump.
  { intros w Hn. unfold jump_to_date. fold snap. rewrite Hn. simpl.
    destruct (list_index_spec valid w) as (i & -> & _);
      [by eapply nearest_week_Ok_elem|].
    by eexists. }
  split.
  - intros first Hhead Hle. apply Hjump.
    destruct valid as [|w0 rest]; [done|]. simpl in Hhead. simplify_eq.
    destruct (nearest_week_spec (first :: rest) snap)
      as (k & w & -> & Hk & Hmin & Hfirst); [done|].
    f_equal. destruct k as [|k]; [by simplify_eq/=|].
    specialize (Hfirst O first ltac:(lia) eq_refl).
    pose proof (StronglySorted_lookup_le _ O (S k) first w Hsorted
                  ltac:(lia) eq_refl Hk). lia.
  - intros lst Hlast Hle. apply Hjump.
    assert (valid ≠ []) as Hne by (by intros ->).
    destruct (nearest_week_spec valid snap Hne)
      as (k & w & -> & Hk & Hmin & _).
    f_equal. apply last_Some in Hlast as [init ->].
    assert (lst ∈ init ++ [lst]) as Hin
      by (apply elem_of_app; right; by apply list_elem_of_singleton).
    specialize (Hmin lst Hin).
    pose proof (lookup_lt_Some _ _ _ Hk) as Hlt.
    rewrite length_app in Hlt. simpl in Hlt.
    pose proof (StronglySorted_lookup_le _ k (length init) w lst Hsorted
                  ltac:(lia) Hk) as Hwl.
    rewrite lookup_app_r, Nat.sub_diag in Hwl by lia.
    specialize (Hwl eq_refl). lia.
Qed.

(** X14. A run that succeeds never takes the branch of line 125: the
    filtered table is not empty; and the index it stores lies within
    [valid_weeks] and reads back the week in view. *)
Theorem no_data_branch_unreachable ss df picked ss' view :
  script ss df picked = (ss', Ok view) →
  view_no_data view = false
  ∧ view_week_df view ≠ []
  ∧ ∃ idx, ss' = Some idx
      ∧ 0 ≤ idx < Z.of_nat (length (valid_weeks df))
      ∧ getitem (valid_weeks df) idx = Ok (view_selected_week view).
Proof.
  intros (manual & nearest & i & _ & -> & -> & Hlook & _)%script_Ok_inv.
  destruct (week_filter_of_valid df nearest) as (Hnorm & Hdf & Hne);
    [by eapply list_elem_of_lookup_2|].
  split; [|split; [done|]].
  - unfold week_filter in *. cbn [view_no_data view_week_df] in *.
    by apply bool_decide_eq_false.
  - exists (Z.of_nat i). split; [done|].
    pose proof (lookup_lt_Some _ _ _ Hlook). split; [lia|].
    unfold week_filter. cbn [view_selected_week]. rewrite Hnorm.
    by apply getitem_nonneg.
Qed.

(** X15. A run on an empty table stores the index -1, and a session with
    that index behaves on every table as a fresh session does. *)
Theorem session_after_empty_table_is_fresh picked :
  (script None [] picked).1 = Some (-1)
  ∧ ∀ df picked', script (Some (-1)) df picked' = script None df picked'.
Proof.
  split; [done|]. intros df picked'. unfold script, selected_week.
  cbn [init_selection]. unfold current_index.
  set (valid := valid_weeks df).
  destruct valid as [|w0 rest] eqn:Hvalid; [done|].
  assert (getitem (w0 :: rest) (-1)
          = getitem (w0 :: rest) (Z.of_nat (length (w0 :: rest)) - 1)) as Hget.
  { destruct (lookup_lt_is_Some_2 (w0 :: rest) (length (w0 :: rest) - 1))
      as [w Hw]; [simpl; lia|].
    rewrite (getitem_negative (w0 :: rest) (-1) w); [|lia| |simpl; lia].
    - replace (Z.of_nat (length (w0 :: rest)) - 1)
        with (Z.of_nat (length (w0 :: rest) - 1)) by (simpl; lia).
      by rewrite (getitem_nonneg _ _ w Hw).
    - by replace (Z.to_nat (Z.of_nat (length (w0 :: rest)) + -1))
        with (length (w0 :: rest) - 1)%nat by (simpl; lia). }
  rewrite Hget.
  destruct (getitem (w0 :: rest) (Z.of_nat (length (w0 :: rest)) - 1))
    as [sel|e] eqn:Hsel.
  - destruct (jump_to_date_spec (w0 :: rest) (default (Timestamp_date sel) picked'))
      as (k & w & idx & -> & _); [done|]. done.
  - destruct (getitem_in_range (w0 :: rest) (Z.of_nat (length (w0 :: rest)) - 1))
      as (a & Ha & _); [simpl; lia|]. rewrite Ha in Hsel. done.
Qed.

Lemma StronglySorted_filter {A} (R : relation A) (P : A → Prop)
    `{∀ x, Decision (P x)} (l : list A) :
  StronglySorted R l → StronglySorted R (filter P l).
Proof.
  induction 1 as [|x l _ IH Hall]; [constructor|].
  rewrite filter_cons. destruct (decide (P x)); [|done].
  constructor; [done|]. rewrite Forall_forall in *.
  intros y [_ Hy]%list_elem_of_filter. by apply Hall.
Qed.

Lemma foldr_min_le t col x : x ∈ t :: col → foldr Z.min t col ≤ x.
Proof.
  induction col as [|y col IH]; simpl.
  - intros ->%list_elem_of_singleton. lia.
  - intros [->|[->|Hx]%elem_of_cons]%elem_of_cons.
    + specialize (IH ltac:(left)). lia.
    + lia.
    + specialize (IH ltac:(by right)). lia.
Qed.

Lemma foldr_min_elem t col : foldr Z.min t col ∈ t :: col.
Proof.
  induction col as [|y col IH]; simpl; [left|].
  destruct (Z.min_spec y (foldr Z.min t col)) as [[_ ->]|[_ ->]].
  - right; left.
  - apply elem_of_cons in IH as [->|IH]; [left|by do 2 right].
Qed.

Lemma foldr_max_ge t col x : x ∈ t :: col → x ≤ foldr Z.max t col.
Proof.
  induction col as [|y col IH]; simpl.
  - intros ->%list_elem_of_singleton. lia.
  - intros [->|[->|Hx]%elem_of_cons]%elem_of_cons.
    + specialize (IH ltac:(left)). lia.
    + lia.
    + specialize (IH ltac:(by right)). lia.
Qed.

Lemma foldr_max_elem t col : foldr Z.max t col ∈ t :: col.
Proof.
  induction col as [|y col IH]; simpl; [left|].
  destruct (Z.max_spec y (foldr Z.max t col)) as [[_ ->]|[_ ->]].
  - apply elem_of_cons in IH as [->|IH]; [left|by do 2 right].
  - right; left.
Qed.

Lemma StronglySorted_head_least (l : list Z) x first :
  StronglySorted Z.le l → head l = Some first → x ∈ l → first ≤ x.
Proof.
  intros Hs Hh [j Hj]%list_elem_of_lookup. destruct l as [|a l]; [done|].
  simpl in Hh. simplify_eq.
  by apply (StronglySorted_lookup_le (first :: l) O j first x Hs ltac:(lia)).
Qed.

Lemma StronglySorted_last_greatest (l : list Z) x lst :
  StronglySorted Z.le l → last l = Some lst → x ∈ l → x ≤ lst.
Proof.
  intros Hs [init ->]%last_Some [j Hj]%list_elem_of_lookup.
  pose proof (lookup_lt_Some _ _ _ Hj) as Hlt.
  rewrite length_app in Hlt. simpl in Hlt.
  apply (StronglySorted_lookup_le _ j (length init) x lst Hs); [lia|done|].
  by rewrite lookup_app_r, Nat.sub_diag by lia.
Qed.

(** X13. The caption counts as many weeks as [valid_weeks] has, and its
    first and last week are the first and last of [valid_weeks] ([NaT] for
    both on an empty table). *)
Theorem caption_matches_valid_weeks df :
  caption_values df
  = (Z.of_nat (length (valid_weeks df)),
     head (valid_weeks df), last (valid_weeks df)).
Proof.
  unfold caption_values, nunique.
  assert (∀ w, w ∈ week_start_column <$> df ↔ w ∈ valid_weeks df) as Helem.
  { intros w. rewrite elem_of_valid_weeks, list_elem_of_fmap.
    split; intros (r & Hw & Hr).
    - exists r. by rewrite Hw, week_start_column_to_datetime.
    - exists r. by rewrite week_start_column_to_datetime. }
  assert (length (remove_dups (week_start_column <$> df))
          = length (valid_weeks df)) as ->.
  { apply Permutation_length, NoDup_Permutation;
      [apply NoDup_remove_dups|apply valid_weeks_NoDup|].
    intros w. by rewrite elem_of_remove_dups. }
  pose proof (valid_weeks_Sorted df) as Hsorted.
  destruct df as [|r df]; [done|].
  rewrite fmap_cons in *. cbn [column_min column_max].
  set (t := week_start_column r) in *. set (col := week_start_column <$> df) in *.
  set (valid := valid_weeks (r :: df)) in *.
  destruct (head valid) as [first|] eqn:Hhead.
  2:{ destruct valid; [|done]. by destruct (proj1 (Helem t) ltac:(left)). }
  destruct (last valid) as [lst|] eqn:Hlast.
  2:{ apply last_None in Hlast. rewrite Hlast in Hhead. done. }
  assert (first ∈ valid) as Hf by (destruct valid; simplify_eq/=; left).
  assert (lst ∈ valid) as Hl.
  { apply last_Some in Hlast as [init ->]. apply elem_of_app. right. left. }
  f_equal; [f_equal|]; f_equal.
  - apply Z.le_antisymm.
    + by apply foldr_min_le, Helem.
    + apply (StronglySorted_head_least valid); [done..|].
      apply Helem, foldr_min_elem.
  - apply Z.le_antisymm.
    + apply (StronglySorted_last_greatest valid); [done..|].
      apply Helem, foldr_max_elem.
    + by apply foldr_max_ge, Helem.
Qed.

(** X9. On a loaded table, picking any date within the seven days of a
    row's week jumps to exactly that week, and the row is in the filtered
    table. *)
Theorem pick_inside_a_week_with_data viewings prospects rows r d :
  load_weekly_data viewings prospects = Ok rows → r ∈ rows →
  week_start r ≤ d ≤ week_start r + 6 →
  ∃ idx, jump_to_date (valid_weeks rows) d
         = Ok (to_datetime (week_start r), idx)
    ∧ valid_weeks rows !! Z.to_nat idx = Some (to_datetime (week_start r))
    ∧ r ∈ view_week_df (week_filter rows (to_datetime (week_start r))).
Proof.
  intros Hload Hr Hd.
  pose proof (load_week_start_monday _ _ _ _ Hload Hr) as Hmonday.
  assert (to_datetime (week_start r) ∈ valid_weeks rows) as Hin
    by (apply elem_of_valid_weeks; by exists r).
  unfold jump_to_date.
  rewrite snap_week_to_datetime.
  change (d - weekday d) with (date_trunc_week d).
  rewrite (date_trunc_week_unique (week_start r) d Hmonday Hd).
  rewrite (nearest_week_exact _ _ Hin). simpl.
  destruct (list_index_spec _ _ Hin) as (i & -> & Hi). simpl.
  exists (Z.of_nat i). split; [done|]. rewrite Nat2Z.id. split; [done|].
  destruct (week_filter_of_valid rows _ Hin) as (_ & -> & _).
  by apply list_elem_of_filter.
Qed.

(** X11. On a loaded table, after a run that succeeded, a rerun with the
    date input left alone shows the same week and leaves the session as it
    is. *)
Theorem rerun_keeps_the_week viewings prospects rows ss picked ss' view :
  load_weekly_data viewings prospects = Ok rows →
  script ss rows picked = (ss', Ok view) →
  script ss' rows None = (ss', Ok view).
Proof.
  intros Hload (manual & nearest & i & _ & -> & -> & Hlook & Hidx)%script_Ok_inv.
  assert (nearest ∈ valid_weeks rows) as Hin by (by eapply list_elem_of_lookup_2).
  pose proof Hin as (r0 & Hr0 & Hw)%elem_of_valid_weeks.
  pose proof (load_week_start_monday _ _ _ _ Hload Hr0) as Hmonday.
  unfold script, selected_week. cbn [init_selection].
  rewrite (getitem_nonneg _ _ _ Hlook). cbn [default].
  unfold jump_to_date. rewrite snap_week_to_datetime.
  rewrite <- Hw, Timestamp_date_to_datetime, Hmonday, Z.sub_0_r, Hw.
  rewrite (nearest_week_exact _ _ Hin). simpl. rewrite Hidx. done.
Qed.

Lemma week_df_elem rows selected r :
  r ∈ view_week_df (week_filter rows selected) ↔
  r ∈ rows ∧ to_datetime (week_start r) = normalize selected.
Proof.
  unfold week_filter. cbn [view_week_df].
  rewrite list_elem_of_filter, week_start_column_to_datetime. tauto.
Qed.

Lemma week_df_agent_inj viewings prospects rows selected r1 r2 :
  load_weekly_data viewings prospects = Ok rows →
  r1 ∈ view_week_df (week_filter rows selected) →
  r2 ∈ view_week_df (week_filter rows selected) →
  agent r1 = agent r2 → r1 = r2.
Proof.
  intros Hload [Hr1 Hw1]%week_df_elem [Hr2 Hw2]%week_df_elem Ha.
  apply (NoDup_fmap_elem_inj row_key rows); [by eapply load_NoDup|done..|].
  unfold row_key. f_equal; [done|]. apply to_datetime_inj. congruence.
Qed.

(** The filtered table of a loaded table is in the order of the agents. *)
Lemma week_df_sorted viewings prospects rows selected :
  load_weekly_data viewings prospects = Ok rows →
  StronglySorted agent_lt (view_week_df (week_filter rows selected)).
Proof.
  intros Hload. set (week_df := view_week_df (week_filter rows selected)).
  assert (StronglySorted order_le week_df) as Hsorted.
  { unfold week_df, week_filter. cbn [view_week_df].
    apply StronglySorted_filter. by eapply load_Sorted. }
  assert (NoDup week_df) as Hnd.
  { unfold week_df, week_filter. cbn [view_week_df].
    apply NoDup_filter. eapply NoDup_fmap_1. by eapply load_NoDup. }
  assert (∀ r1 r2, r1 ∈ week_df → r2 ∈ week_df → agent r1 = agent r2 → r1 = r2)
    as Hinj by (intros r1 r2; by eapply week_df_agent_inj).
  assert (∀ r1 r2, r1 ∈ week_df → r2 ∈ week_df → week_start r1 = week_start r2)
    as Hweek.
  { intros r1 r2 [_ Hw1]%week_df_elem [_ Hw2]%week_df_elem.
    apply to_datetime_inj. congruence. }
  induction Hsorted as [|r l _ IH Hall]; [constructor|].
  apply NoDup_cons in Hnd as [Hr Hnd].
  constructor.
  - apply IH; [done|intros r1 r2 H1 H2; apply Hinj; by right|].
    intros r1 r2 H1 H2. apply Hweek; by right.
  - rewrite Forall_forall in *. intros r' Hr'. split.
    + destruct (Hall r' Hr') as [Hlt|[_ Hle]]; [|done].
      rewrite (Hweek r r') in Hlt; [lia|left|by right].
    + intros Ha. destruct Hr. rewrite (Hinj r r'); [done|left|by right|done].
Qed.

(** X12. On a loaded table the filtered table of any week holds exactly
    the rows of that week, one per agent, in ascending order of agent. *)
Theorem week_table_one_row_per_agent viewings prospects rows selected :
  load_weekly_data viewings prospects = Ok rows →
  let week_df := view_week_df (week_filter rows selected) in
  StronglySorted agent_lt week_df
  ∧ NoDup (agent <$> week_df)
  ∧ ∀ r, r ∈ week_df ↔
         r ∈ rows ∧ to_datetime (week_start r) = normalize selected.
Proof.
  intros Hload week_df.
  split; [by eapply week_df_sorted|]. split; [|apply week_df_elem].
  apply NoDup_fmap_2_strong.
  - intros r1 r2. by eapply week_df_agent_inj.
  - unfold week_df, week_filter. cbn [view_week_df].
    apply NoDup_filter. eapply NoDup_fmap_1. by eapply load_NoDup.
Qed.

(** *** The floats of the percentages *)

Lemma tenth_steps : forallb tenth_step_ok (seqZ 0 1000) = true.
Proof. vm_compute. reflexivity. Qed.

Lemma tenth_step t :
  0 ≤ t < 1000 →
  ∃ a b, float64_of_numeric (Numeric t 1) = Fin a
       ∧ float64_of_numeric (Numeric (t + 1) 1) = Fin b ∧ (a < b)%Q.
Proof.
  intros Ht. pose proof tenth_steps as Hall.
  rewrite forallb_forall in Hall. specialize (Hall t).
  unfold tenth_step_ok in Hall.
  destruct (float64_of_numeric (Numeric t 1)) as [| |a|];
    destruct (float64_of_numeric (Numeric (t + 1) 1)) as [| |b|];
    try (discriminate Hall; apply list_elem_of_In, elem_of_seqZ; lia).
  exists a, b. split; [done|]. split; [done|]. apply Qlt_alt.
  destruct (a ?= b)%Q; [|done|];
    discriminate Hall; apply list_elem_of_In, elem_of_seqZ; lia.
Qed.

Lemma tenth_float_Fin t :
  0 ≤ t ≤ 1000 → ∃ q, float64_of_numeric (Numeric t 1) = Fin q.
Proof.
  intros Ht. destruct (decide (t = 1000)) as [->|Hne].
  - destruct (tenth_step 999) as (a & b & _ & Hb & _); [lia|]. by exists b.
  - destruct (tenth_step t) as (a & b & Ha & _); [lia|]. by exists a.
Qed.

(** On the percentages from 0.0 to 100.0 the conversion to floats keeps
    the order. *)
Lemma tenth_float_mono t1 t2 :
  0 ≤ t1 → t1 < t2 → t2 ≤ 1000 →
  (float64_value (float64_of_numeric (Numeric t1 1))
   < float64_value (float64_of_numeric (Numeric t2 1)))%Q.
Proof.
  intros Hlow Hlt Hmax.
  replace t2 with (t1 + 1 + Z.of_nat (Z.to_nat (t2 - t1 - 1))) in * by lia.
  generalize dependent (Z.to_nat (t2 - t1 - 1)). clear t2.
  intros n. induction n as [|n IH]; intros Hlt Hmax.
  - rewrite Z.add_0_r.
    destruct (tenth_step t1) as (a & b & -> & -> & Hab); [lia|done].
  - eapply Qlt_trans; [apply IH; lia|].
    replace (t1 + 1 + Z.of_nat (S n)) with (t1 + 1 + Z.of_nat n + 1) by lia.
    destruct (tenth_step (t1 + 1 + Z.of_nat n)) as (a & b & -> & -> & Hab);
      [lia|done].
Qed.

(** *** argmax on finite floats *)

Lemma float64_ltb_Fin a b : float64_ltb (Fin a) (Fin b) = true ↔ (a < b)%Q.
Proof.
  simpl. rewrite Qlt_alt. destruct (a ?= b)%Q; split; done.
Qed.

Lemma argmax_go_spec (pre l : list Q) best best_i :
  pre !! best_i = Some best →
  (∀ y, y ∈ pre → (y <= best)%Q) →
  (∀ j y, (j < best_i)%nat → pre !! j = Some y → (y < best)%Q) →
  ∃ x, (pre ++ l) !! argmax_go (Fin <$> l) (length pre) (Fin best) best_i
       = Some x
    ∧ (∀ y, y ∈ pre ++ l → (y <= x)%Q)
    ∧ (∀ j y, (j < argmax_go (Fin <$> l) (length pre) (Fin best) best_i)%nat →
              (pre ++ l) !! j = Some y → (y < x)%Q).
Proof.
  revert pre best best_i.
  induction l as [|z l IH]; intros pre best best_i Hbest Hmax Hfirst.
  - rewrite app_nil_r. simpl. eauto.
  - rewrite fmap_cons. cbn [argmax_go].
    rewrite (cons_middle z pre l), app_assoc.
    replace (S (length pre)) with (length (pre ++ [z]))
      by (rewrite length_app; simpl; lia).
    pose proof (lookup_lt_Some _ _ _ Hbest) as Hlt.
    destruct (float64_ltb (Fin best) (Fin z)) eqn:Hcmp; apply IH.
    + rewrite lookup_app_r by lia. by rewrite Nat.sub_diag.
    + apply float64_ltb_Fin in Hcmp.
      intros y [Hy|Hy%list_elem_of_singleton]%elem_of_app.
      * eapply Qle_trans; [by apply Hmax|by apply Qlt_le_weak].
      * subst y. apply Qle_refl.
    + apply float64_ltb_Fin in Hcmp.
      intros j y Hj Hy. rewrite lookup_app_l in Hy by lia.
      eapply Qle_lt_trans; [|exact Hcmp].
      apply Hmax. by eapply list_elem_of_lookup_2.
    + by rewrite lookup_app_l.
    + assert (¬ (best < z)%Q) as Hge
        by (rewrite <- float64_ltb_Fin, Hcmp; done).
      apply Qnot_lt_le in Hge.
      intros y [Hy|Hy%list_elem_of_singleton]%elem_of_app;
        [by apply Hmax|by subst y].
    + intros j y Hj Hy. rewrite lookup_app_l in Hy by lia. by eapply Hfirst.
Qed.

Lemma idxmax_Fin (qs : list Q) :
  qs ≠ [] →
  ∃ k x, idxmax (Fin <$> qs) = Some k ∧ qs !! k = Some x
    ∧ (∀ y, y ∈ qs → (y <= x)%Q)
    ∧ (∀ j y, (j < k)%nat → qs !! j = Some y → (y < x)%Q).
Proof.
  destruct qs as [|z l]; [done|]. intros _. unfold idxmax.
  rewrite fmap_cons. cbn [forallb is_nan andb]. rewrite fmap_cons.
  cbn [is_nan]. rewrite <- list_fmap_compose.
  rewrite (list_fmap_ext _ Fin l) by done.
  destruct (argmax_go_spec [z] l z 0) as (x & Hx & Hmax & Hfirst).
  - done.
  - intros y Hy%list_elem_of_singleton. subst y. apply Qle_refl.
  - intros j y Hj. lia.
  - exists (argmax_go (Fin <$> l) 1 (Fin z) 0), x. done.
Qed.

Lemma StronglySorted_lookup_lt {A} (R : relation A) (l : list A) i j x y :
  StronglySorted R l → (i < j)%nat → l !! i = Some x → l !! j = Some y → R x y.
Proof.
  intros Hs. revert i j. induction Hs as [|z l Hs IH Hall]; intros i j Hij Hi Hj.
  - by rewrite lookup_nil in Hi.
  - destruct i as [|i], j as [|j]; simpl in *; simplify_eq; [lia| |lia|].
    + rewrite Forall_forall in Hall. apply Hall. by eapply list_elem_of_lookup_2.
    + eapply IH; [|done..]. lia.
Qed.

(** The overall conversion of a row of the query is a percentage from 0.0
    to 100.0 with one decimal place. *)
Lemma load_total_conversion viewings prospects rows r :
  load_weekly_data viewings prospects = Ok rows → r ∈ rows →
  ∃ t, total_conversion_rate r = Some (Numeric t 1) ∧ 0 ≤ t ≤ 1000.
Proof.
  intros Hload Hr.
  destruct (load_row_counts _ _ _ _ Hload Hr) as (Hpos & _ & Hten).
  destruct (load_row _ _ _ _ Hload Hr) as (_ & _ & _ & _ & _ & _ & _ & ->).
  destruct (rate_range (tenants r) (total_viewings r)) as (t & -> & ? & Ht);
    [lia..|].
  exists t. split; [done|lia].
Qed.

(** X16. On a loaded table, for a week the table has, the highlighted
    top agent is an agent of that week whose [total_conversion_rate] no
    other row of the week exceeds, and among the rows with that rate the
    one whose agent comes first in the order of the query; the rates
    compared are the floats pandas holds, which keep the order of the
    percentages. *)
Theorem top_agent_has_the_best_rate viewings prospects rows selected :
  load_weekly_data viewings prospects = Ok rows →
  selected ∈ valid_weeks rows →
  let week_df := view_week_df (week_filter rows selected) in
  ∃ top t_top,
    top_row week_df = Some top
    ∧ top_agent week_df = Some (agent top)
    ∧ top ∈ week_df
    ∧ total_conversion_rate top = Some (Numeric t_top 1)
    ∧ ∀ r, r ∈ week_df →
        ∃ t, total_conversion_rate r = Some (Numeric t 1)
          ∧ t ≤ t_top
          ∧ (t = t_top → collate_le (agent top) (agent r)).
Proof.
  intros Hload Hsel week_df.
  destruct (week_filter_of_valid rows selected Hsel) as (_ & _ & Hne).
  fold week_df in Hne.
  assert (∀ r, r ∈ week_df →
    ∃ t, total_conversion_rate r = Some (Numeric t 1) ∧ 0 ≤ t ≤ 1000
       ∧ coerce_float (total_conversion_rate r)
         = Fin (float64_value (coerce_float (total_conversion_rate r))))
    as Hrate.
  { intros r [Hr _]%week_df_elem.
    destruct (load_total_conversion _ _ _ _ Hload Hr) as (t & Ht & Hrange).
    exists t. split; [done|]. split; [done|]. rewrite Ht. simpl.
    by destruct (tenth_float_Fin t Hrange) as [q ->]. }
  set (g := λ r, float64_value (coerce_float (total_conversion_rate r))).
  assert (coerce_float ∘ total_conversion_rate <$> week_df
          = Fin <$> (g <$> week_df)) as Hcol.
  { rewrite <- list_fmap_compose. apply list_fmap_ext. intros i r Hi.
    destruct (Hrate r) as (_ & _ & _ & Hfin);
      [by eapply list_elem_of_lookup_2|done]. }
  destruct (idxmax_Fin (g <$> week_df)) as (k & x & Hk & Hx & Hmax & Hfirst).
  { by destruct week_df. }
  apply list_lookup_fmap_Some_1 in Hx as (top & -> & Htop).
  assert (top ∈ week_df) as Hin by (by eapply list_elem_of_lookup_2).
  destruct (Hrate top Hin) as (t_top & Ht_top & Hrange_top & _).
  assert (top_row week_df = Some top) as Hrow.
  { unfold top_row. rewrite Hcol, Hk. simpl. done. }
  exists top, t_top. split; [done|]. split; [by unfold top_agent; rewrite Hrow|].
  split; [done|]. split; [done|].
  intros r Hr. destruct (Hrate r Hr) as (t & Ht & Hrange & _).
  exists t. split; [done|].
  assert (g r = float64_value (float64_of_numeric (Numeric t 1))) as Hgr
    by (unfold g; by rewrite Ht).
  assert (g top = float64_value (float64_of_numeric (Numeric t_top 1))) as Hgt
    by (unfold g; by rewrite Ht_top).
  split.
  - destruct (decide (t ≤ t_top)) as [|Hgt']; [done|]. exfalso.
    assert (g top < g r)%Q as Hlt
      by (rewrite Hgr, Hgt; apply tenth_float_mono; lia).
    apply (Qlt_not_le _ _ Hlt), Hmax, list_elem_of_fmap. by exists r.
  - intros ->. apply list_elem_of_lookup in Hr as [j Hj].
    destruct (Nat.lt_trichotomy j k) as [Hjk|[->|Hjk]].
    + exfalso. apply (Qlt_irrefl (g top)). rewrite <- Hgt in Hgr.
      rewrite <- Hgr at 1. apply (Hfirst j); [done|].
      by apply (list_lookup_fmap_Some_2 g).
    + rewrite Htop in Hj. by simplify_eq.
    + by apply (StronglySorted_lookup_lt agent_lt week_df k j top r
                  (week_df_sorted _ _ _ _ Hload) Hjk Htop Hj).
Qed.

End further_properties.

(** ** The properties at the sample data *)

Section samples.
Local Existing Instance to_date_ddmmyyyy.
Local Existing Instance collate_C.

(** C1, counterexample: one viewing by a person without a prospect record
    gives a row with 0 applications whose [app_to_tenant_rate] is NULL. *)
Lemma app_to_tenant_rate_null_counterexample :
  load_weekly_data lone_viewing [] = Ok [lone_row]
  ∧ applications lone_row = 0
  ∧ app_to_tenant_rate lone_row = None
  ∧ app_to_tenant_rate lone_row ≠ Some (Numeric 0 1).
Proof. split; [vm_compute; reflexivity|done]. Qed.

(** C1 at the sample data. *)
Lemma rates_rounded_or_null_witness :
  load_weekly_data sample_viewings sample_prospects = Ok sample_rows
  ∧ sample_row_A2 ∈ sample_rows
  ∧ total_viewings sample_row_A2 < 10 ^ 12
  ∧ view_to_app_rate sample_row_A2 = Some (Numeric 500 1)
  ∧ total_conversion_rate sample_row_A2 = Some (Numeric 500 1)
  ∧ app_to_tenant_rate sample_row_A2 = Some (Numeric 1000 1).
Proof.
  assert (load_weekly_data sample_viewings sample_prospects = Ok sample_rows)
    as Hload by (vm_compute; reflexivity).
  assert (sample_row_A2 ∈ sample_rows) as Hin
    by (apply list_elem_of_further, list_elem_of_here).
  assert (total_viewings sample_row_A2 < 10 ^ 12) as Hsmall by reflexivity.
  split; [exact Hload|]. split; [exact Hin|]. split; [exact Hsmall|].
  destruct (rates_rounded_or_null _ _ _ _ Hload Hin Hsmall) as (_ & Hv & Ht & Ha).
  split; [exact Hv|]. split; [exact Ht|exact Ha].
Defined.

(** C2, counterexample: a second viewing whose date is the text "unknown"
    makes the load fail, while the first viewing alone loads. *)
Lemma unparseable_date_fails_load_counterexample :
  to_date_ddmmyyyy "unknown" = None
  ∧ load_weekly_data dirty_viewings [] = Raise DataError
  ∧ load_weekly_data lone_viewing [] = Ok [lone_row].
Proof. vm_compute. auto. Qed.

(** C4, counterexample: one person applied and two others are tenants
    without an "applied" marker; [app_to_tenant_rate] is 200.0. *)
Lemma app_to_tenant_rate_above_100_counterexample :
  load_weekly_data tenant_viewings tenant_prospects = Ok [tenant_row]
  ∧ app_to_tenant_rate tenant_row = Some (Numeric 2000 1)
  ∧ ¬ numeric_in 0 100 (Numeric 2000 1).
Proof.
  split; [vm_compute; reflexivity|]. split; [done|].
  unfold numeric_in. simpl. lia.
Qed.

(** C4 at the sample data. *)
Lemma rates_in_range_witness :
  load_weekly_data sample_viewings sample_prospects = Ok sample_rows
  ∧ sample_row_A2 ∈ sample_rows
  ∧ (∃ x, view_to_app_rate sample_row_A2 = Some x ∧ numeric_in 0 100 x)
  ∧ (∃ x, total_conversion_rate sample_row_A2 = Some x ∧ numeric_in 0 100 x).
Proof.
  assert (load_weekly_data sample_viewings sample_prospects = Ok sample_rows)
    as Hload by (vm_compute; reflexivity).
  assert (sample_row_A2 ∈ sample_rows) as Hin
    by (apply list_elem_of_further, list_elem_of_here).
  split; [exact Hload|]. split; [exact Hin|].
  destruct (rates_in_range _ _ _ _ Hload Hin) as (Hv & Ht & _).
  split; [exact Hv|exact Ht].
Defined.

(** C5 at the sample data. *)
Lemma nearest_week_minimises_witness :
  three_weeks ≠ [] ∧ Sorted Z.le three_weeks
  ∧ snap_week (to_datetime 19732) = to_datetime 19730
  ∧ ∃ w idx, jump_to_date three_weeks 19732 = Ok (w, idx) ∧ w ∈ three_weeks.
Proof.
  assert (three_weeks ≠ []) as Hne by discriminate.
  assert (Sorted Z.le three_weeks) as Hsorted.
  { repeat (constructor; try (vm_compute; discriminate)). }
  split; [exact Hne|]. split; [exact Hsorted|].
  destruct (nearest_week_minimises three_weeks 19732 Hne Hsorted)
    as (_ & _ & Hsnap & w & idx & Hjump & Hin & _).
  split; [exact Hsnap|]. exists w, idx. split; [exact Hjump|exact Hin].
Defined.

(** C6 at the sample data. *)
Lemma counts_are_distinct_person_counts_witness :
  load_weekly_data sample_viewings sample_prospects = Ok sample_rows
  ∧ sample_row_A2 ∈ sample_rows
  ∧ total_viewings sample_row_A2
    = Z.of_nat (length (group_persons sample_viewings ("A", 19730)))
  ∧ tenants sample_row_A2 ≤ total_viewings sample_row_A2.
Proof.
  assert (load_weekly_data sample_viewings sample_prospects = Ok sample_rows)
    as Hload by (vm_compute; reflexivity).
  assert (sample_row_A2 ∈ sample_rows) as Hin
    by (apply list_elem_of_further, list_elem_of_here).
  split; [exact Hload|]. split; [exact Hin|].
  destruct (counts_are_distinct_person_counts _ _ _ _ Hload Hin)
    as (Ht & _ & _ & Hle & _).
  split; [exact Ht|exact Hle].
Defined.

(** C7, counterexample: the stored index -1 lies outside [[0, 3)], and
    the selected week is the last of the three weeks. *)
Lemma negative_index_wraps_counterexample :
  ¬ (0 ≤ -1 < Z.of_nat (length three_weeks))
  ∧ selected_week three_weeks (Some (-1)) = (Some (-1), Ok (to_datetime 19737)).
Proof. split; [simpl; lia|vm_compute; reflexivity]. Qed.

(** C8 at the sample data. *)
Lemma week_window_matches_rows_witness :
  load_weekly_data sample_viewings sample_prospects = Ok sample_rows
  ∧ to_datetime 19730 ∈ valid_weeks sample_rows
  ∧ view_start_of_week (week_filter sample_rows (to_datetime 19730))
    = to_datetime 19730
  ∧ view_end_of_week (week_filter sample_rows (to_datetime 19730))
    = to_datetime 19730 + 6 * NS_PER_DAY.
Proof.
  assert (load_weekly_data sample_viewings sample_prospects = Ok sample_rows)
    as Hload by (vm_compute; reflexivity).
  assert (to_datetime 19730 ∈ valid_weeks sample_rows) as Hin.
  { change (valid_weeks sample_rows) with
      [to_datetime 19723; to_datetime 19730].
    apply list_elem_of_further, list_elem_of_here. }
  split; [exact Hload|]. split; [exact Hin|].
  destruct (week_window_matches_rows _ _ _ _ Hload Hin) as (_ & _ & Hs & He & _).
  split; [exact Hs|exact He].
Defined.

(** C9 at the sample data. *)
Lemma load_sorted_one_row_per_group_witness :
  load_weekly_data sample_viewings sample_prospects = Ok sample_rows
  ∧ StronglySorted week_agent_lt sample_rows
  ∧ NoDup ((λ r, (agent r, week_start r)) <$> sample_rows).
Proof.
  assert (load_weekly_data sample_viewings sample_prospects = Ok sample_rows)
    as Hload by (vm_compute; reflexivity).
  split; [exact Hload|].
  destruct (load_sorted_one_row_per_group _ _ _ Hload) as (Hs & Hn & _).
  split; [exact Hs|exact Hn].
Defined.

(** C10 at the sample data. *)
Lemma jump_index_consistent_witness :
  sample_rows ≠ []
  ∧ (∀ i : Z, Some 1 = Some i →
       - Z.of_nat (length (valid_weeks sample_rows)) ≤ i
       < Z.of_nat (length (valid_weeks sample_rows)))
  ∧ ∃ view idx,
      script (Some 1) sample_rows (Some 19727) = (Some idx, Ok view)
      ∧ valid_weeks sample_rows !! Z.to_nat idx = Some (view_selected_week view).
Proof.
  assert (sample_rows ≠ []) as Hne by discriminate.
  assert (∀ i : Z, Some 1 = Some i →
       - Z.of_nat (length (valid_weeks sample_rows)) ≤ i
       < Z.of_nat (length (valid_weeks sample_rows))) as Hss.
  { intros i [= <-]. vm_compute. split; [discriminate|reflexivity]. }
  split; [exact Hne|]. split; [exact Hss|].
  destruct (jump_index_consistent sample_rows (Some 1) (Some 19727) Hne Hss)
    as (view & idx & _ & Hscript & _ & _ & Hidx & _).
  exists view, idx. split; [exact Hscript|exact Hidx].
Defined.

(** ** The scenarios of the spec *)

Example civil_epoch : days_from_civil 1970 1 1 = 0.
Proof. reflexivity. Qed.

Example civil_2024_01_01 : days_from_civil 2024 1 1 = 19723.
Proof. reflexivity. Qed.

Example to_date_2024_01_10 : to_date_ddmmyyyy "10/01/2024" = Some 19732.
Proof. reflexivity. Qed.

Example to_date_no_such_day : to_date_ddmmyyyy "30/02/2023" = None.
Proof. reflexivity. Qed.

Example quotient_1_3 : numeric_div 1 3 = Numeric 33333333333333333333 20.
Proof. reflexivity. Qed.

Example quotient_10_3 : numeric_div 10 3 = Numeric 33333333333333333 16.
Proof. reflexivity. Qed.

(** Far above the counts of C1 the rounding of the quotient shows. With
    12000000000005 tenants of 11 applicants the ratio times 100 is
    109090909090954.545..., and the rate is one tenth above its rounding;
    with 5 * 10^13 applicants among 10^17 + 1 viewers the ratio times 100
    is just below 0.05, and the rate is 0.1. *)
Example rate_of_a_huge_count :
  pct_1dp 12000000000005 11 = 1090909090909545
  ∧ rate 12000000000005 11 = Some (Numeric 1090909090909546 1)
  ∧ pct_1dp (5 * 10 ^ 13) (10 ^ 17 + 1) = 0
  ∧ rate (5 * 10 ^ 13) (10 ^ 17 + 1) = Some (Numeric 1 1).
Proof. vm_compute. done. Qed.

(** Agent "A" with 10 viewings, 4 applications and 2 tenants: 40.0, 50.0
    and 20.0. *)
Example scenario_rates :
  rate 4 10 = Some (Numeric 400 1)
  ∧ rate 2 4 = Some (Numeric 500 1)
  ∧ rate 2 10 = Some (Numeric 200 1).
Proof. done. Qed.

(** Weeks 2024-01-01, 2024-01-08 and 2024-01-15: the initial selection is
    the last week, and 2024-01-10 snaps to 2024-01-08. *)
Example scenario_weeks :
  selected_week three_weeks None = (Some 2, Ok (to_datetime 19737))
  ∧ snap_week (to_datetime 19732) = to_datetime 19730
  ∧ jump_to_date three_weeks 19732 = Ok (to_datetime 19730, 1).
Proof. vm_compute. done. Qed.

Example sample_request :
  request None sample_viewings sample_prospects (Some 19727)
  = (Some 0, Ok (week_filter sample_rows (to_datetime 19723))).
Proof. vm_compute. reflexivity. Qed.

End samples.

(** ** The further properties at the sample data *)

Section further_samples.
Local Existing Instance to_date_ddmmyyyy.
Local Existing Instance collate_C.

(** X1 at the sample data. *)
Lemma weeks_are_monday_buckets_witness :
  load_weekly_data sample_viewings sample_prospects = Ok sample_rows
  ∧ ∀ r, r ∈ sample_rows → weekday (week_start r) = 0.
Proof.
  assert (load_weekly_data sample_viewings sample_prospects = Ok sample_rows)
    as Hload by (vm_compute; reflexivity).
  split; [exact Hload|].
  exact (proj1 (weeks_are_monday_buckets _ _ _ Hload)).
Defined.

(** X3 at the sample data: every row of both relations is given twice. *)
Lemma load_depends_on_row_sets_witness :
  (∀ v, v ∈ sample_viewings ↔ v ∈ sample_viewings ++ sample_viewings)
  ∧ (∀ p, p ∈ sample_prospects ↔ p ∈ sample_prospects ++ sample_prospects)
  ∧ load_weekly_data sample_viewings sample_prospects
    = load_weekly_data (sample_viewings ++ sample_viewings)
        (sample_prospects ++ sample_prospects).
Proof.
  assert (∀ v, v ∈ sample_viewings ↔ v ∈ sample_viewings ++ sample_viewings)
    as Hvs by (intros v; rewrite elem_of_app; tauto).
  assert (∀ p, p ∈ sample_prospects ↔ p ∈ sample_prospects ++ sample_prospects)
    as Hps by (intros p; rewrite elem_of_app; tauto).
  split; [exact Hvs|]. split; [exact Hps|].
  exact (load_depends_on_row_sets _ _ _ _ Hvs Hps).
Defined.

(** X4 at the sample data: the row of agent A in the first week. *)
Lemma no_conversion_gives_zero_or_null_witness :
  load_weekly_data sample_viewings sample_prospects = Ok sample_rows
  ∧ sample_row_A1 ∈ sample_rows
  ∧ (applications sample_row_A1 = 0 →
       view_to_app_rate sample_row_A1 = Some (Numeric 0 1)
       ∧ app_to_tenant_rate sample_row_A1 = None).
Proof.
  assert (load_weekly_data sample_viewings sample_prospects = Ok sample_rows)
    as Hload by (vm_compute; reflexivity).
  assert (sample_row_A1 ∈ sample_rows) as Hin by apply list_elem_of_here.
  split; [exact Hload|]. split; [exact Hin|].
  destruct (no_conversion_gives_zero_or_null _ _ _ _ Hload Hin)
    as (_ & _ & Hzero & _).
  exact Hzero.
Defined.

(** X5 at the sample data. *)
Lemma tenants_within_applicants_witness :
  (∀ p, p ∈ sample_prospects → p_Status p = Some "Current" →
        is_Some (p_Applied p))
  ∧ load_weekly_data sample_viewings sample_prospects = Ok sample_rows
  ∧ sample_row_A2 ∈ sample_rows
  ∧ tenants sample_row_A2 ≤ applications sample_row_A2.
Proof.
  assert (∀ p, p ∈ sample_prospects → p_Status p = Some "Current" →
               is_Some (p_Applied p)) as Hdata.
  { apply (proj1 (Forall_forall
      (λ p, p_Status p = Some "Current" → is_Some (p_Applied p))
      sample_prospects)). unfold sample_prospects.
    repeat (constructor;
            [simpl; intros Hst; first [discriminate Hst|eexists; reflexivity]|]).
    constructor. }
  assert (load_weekly_data sample_viewings sample_prospects = Ok sample_rows)
    as Hload by (vm_compute; reflexivity).
  assert (sample_row_A2 ∈ sample_rows) as Hin
    by (apply list_elem_of_further, list_elem_of_here).
  split; [exact Hdata|]. split; [exact Hload|]. split; [exact Hin|].
  exact (proj1 (tenants_within_applicants _ _ _ _ Hdata Hload Hin)).
Defined.

(** X6 at the sample data. *)
Lemma viewings_counted_at_most_once_witness :
  load_weekly_data sample_viewings sample_prospects = Ok sample_rows
  ∧ foldr Z.add 0 (total_viewings <$> sample_rows)
    ≤ Z.of_nat (length (filter (λ v, is_Some (v_personId v)) sample_viewings)).
Proof.
  assert (load_weekly_data sample_viewings sample_prospects = Ok sample_rows)
    as Hload by (vm_compute; reflexivity).
  split; [exact Hload|].
  exact (proj2 (viewings_counted_at_most_once _ _ _ Hload)).
Defined.

(** X8 at the sample data. *)
Lemma fresh_session_selects_latest_week_witness :
  sample_rows ≠ []
  ∧ ∃ w, selected_week (valid_weeks sample_rows) None
         = (Some (Z.of_nat (length (valid_weeks sample_rows)) - 1), Ok w)
      ∧ ∀ r, r ∈ sample_rows → to_datetime (week_start r) ≤ w.
Proof.
  assert (sample_rows ≠ []) as Hne by discriminate.
  split; [exact Hne|].
  destruct (fresh_session_selects_latest_week sample_rows Hne)
    as (w & Hsel & _ & Hmax).
  exists w. split; [exact Hsel|exact Hmax].
Defined.

(** X9 at the sample data: Wednesday 2024-01-10. *)
Lemma pick_inside_a_week_with_data_witness :
  load_weekly_data sample_viewings sample_prospects = Ok sample_rows
  ∧ sample_row_A2 ∈ sample_rows
  ∧ week_start sample_row_A2 ≤ 19732 ≤ week_start sample_row_A2 + 6
  ∧ ∃ idx, jump_to_date (valid_weeks sample_rows) 19732
           = Ok (to_datetime (week_start sample_row_A2), idx).
Proof.
  assert (load_weekly_data sample_viewings sample_prospects = Ok sample_rows)
    as Hload by (vm_compute; reflexivity).
  assert (sample_row_A2 ∈ sample_rows) as Hin
    by (apply list_elem_of_further, list_elem_of_here).
  assert (week_start sample_row_A2 ≤ 19732 ≤ week_start sample_row_A2 + 6)
    as Hd by (simpl; lia).
  split; [exact Hload|]. split; [exact Hin|]. split; [exact Hd|].
  destruct (pick_inside_a_week_with_data _ _ _ _ _ Hload Hin Hd)
    as (idx & Hjump & _).
  exists idx. exact Hjump.
Defined.

(** X10 at the sample data: a date of 2023 and a date of 2025. *)
Lemma jump_clamps_to_the_ends_witness :
  Sorted Z.le three_weeks
  ∧ (∃ idx, jump_to_date three_weeks 19600 = Ok (to_datetime 19723, idx))
  ∧ (∃ idx, jump_to_date three_weeks 20100 = Ok (to_datetime 19737, idx)).
Proof.
  assert (Sorted Z.le three_weeks) as Hsorted.
  { repeat (constructor; try (vm_compute; discriminate)). }
  split; [exact Hsorted|].
  destruct (jump_clamps_to_the_ends three_weeks 19600 Hsorted) as [Hfirst _].
  destruct (jump_clamps_to_the_ends three_weeks 20100 Hsorted) as [_ Hlast].
  split.
  - apply Hfirst; [reflexivity|vm_compute; discriminate].
  - apply Hlast; [reflexivity|vm_compute; discriminate].
Defined.

(** X11 at the sample data. *)
Lemma rerun_keeps_the_week_witness :
  load_weekly_data sample_viewings sample_prospects = Ok sample_rows
  ∧ script None sample_rows (Some 19727)
    = (Some 0, Ok (week_filter sample_rows (to_datetime 19723)))
  ∧ script (Some 0) sample_rows None
    = (Some 0, Ok (week_filter sample_rows (to_datetime 19723))).
Proof.
  assert (load_weekly_data sample_viewings sample_prospects = Ok sample_rows)
    as Hload by (vm_compute; reflexivity).
  assert (script None sample_rows (Some 19727)
          = (Some 0, Ok (week_filter sample_rows (to_datetime 19723))))
    as Hrun by (vm_compute; reflexivity).
  split; [exact Hload|]. split; [exact Hrun|].
  exact (rerun_keeps_the_week _ _ _ _ _ _ _ Hload Hrun).
Defined.

(** X12 at the sample data. *)
Lemma week_table_one_row_per_agent_witness :
  load_weekly_data sample_viewings sample_prospects = Ok sample_rows
  ∧ NoDup (agent <$> view_week_df (week_filter sample_rows (to_datetime 19730))).
Proof.
  assert (load_weekly_data sample_viewings sample_prospects = Ok sample_rows)
    as Hload by (vm_compute; reflexivity).
  split; [exact Hload|].
  destruct (week_table_one_row_per_agent _ _ _ (to_datetime 19730) Hload)
    as (_ & Hnd & _).
  exact Hnd.
Defined.

(** X14 at the sample data. *)
Lemma no_data_branch_unreachable_witness :
  script None sample_rows (Some 19727)
  = (Some 0, Ok (week_filter sample_rows (to_datetime 19723)))
  ∧ view_no_data (week_filter sample_rows (to_datetime 19723)) = false.
Proof.
  assert (script None sample_rows (Some 19727)
          = (Some 0, Ok (week_filter sample_rows (to_datetime 19723))))
    as Hrun by (vm_compute; reflexivity).
  split; [exact Hrun|].
  exact (proj1 (no_data_branch_unreachable _ _ _ _ _ Hrun)).
Defined.

(** X16 at the sample data: the week of 2024-01-08. *)
Lemma top_agent_has_the_best_rate_witness :
  load_weekly_data sample_viewings sample_prospects = Ok sample_rows
  ∧ to_datetime 19730 ∈ valid_weeks sample_rows
  ∧ ∃ top,
      top_agent (view_week_df (week_filter sample_rows (to_datetime 19730)))
      = Some (agent top).
Proof.
  assert (load_weekly_data sample_viewings sample_prospects = Ok sample_rows)
    as Hload by (vm_compute; reflexivity).
  assert (to_datetime 19730 ∈ valid_weeks sample_rows) as Hsel.
  { apply elem_of_valid_weeks. exists sample_row_A2. split; [|reflexivity].
    apply list_elem_of_further, list_elem_of_here. }
  split; [exact Hload|]. split; [exact Hsel|].
  destruct (top_agent_has_the_best_rate _ _ _ _ Hload Hsel)
    as (top & _ & _ & Hagent & _).
  exists top. exact Hagent.
Defined.

End further_samples.
